(** * StepUp preparation tools: label classifier, known-label builder,
      catalog synchroniser

    A shallow embedding of [gen_known_labels.py], [prep_stepup.py] and
    [update_stepup.py], with the properties of their specification.

    Python values are modelled as follows.
    - A [str] is the list of the code points of its characters, each a
      number of type [N]; [len] is the length of that list. The literals
      of the scripts, all ASCII, are written [lit "..."], a single
      character [chr "..."].
    - [str.lower] is a built-in of the language and not code of the
      scripts: the functions that call it take it as the parameter
      [lower], and nothing is assumed of it except where a statement says
      so. [PyStr.lower_ascii] is what it does on ASCII text.
    - A [list] is a [list]; [x in l] on a list is [bool_decide (x ∈ l)].
    - [set(l)] is a [gset]; [list(set(l))] is [elements] of it, whose order
      is fixed but carries no meaning, like the iteration order of a Python
      set.
    - A dictionary with a fixed set of literal keys is a record with one
      field per key.
    - An exception that leaves [main] is an explicit [Raised] outcome. *)

From Stdlib Require Import ZArith NArith Ascii String.
From stdpp Require Import base decidable option numbers list strings gmap sets.

Local Open Scope bool_scope.

(** ** Python strings *)

Abbreviation str := (list N) (only parsing).

(** The code point of an ASCII character, and the string of an ASCII
    literal. *)
Definition chr (a : ascii) : N := N_of_ascii a.

Definition lit (s : string) : str := chr <$> list_ascii_of_string s.

(** The string operations the three scripts use. *)
Module PyStr.

(** [len(s)]. *)
Definition len (s : str) : nat := length s.

(** [c.lower()] and [s.lower()] on ASCII text: [A]..[Z] become [a]..[z]
    and every other code point is left alone. *)
Definition lower_ascii_char (c : N) : N :=
  if (65 <=? c)%N && (c <=? 90)%N then (c + 32)%N else c.

Definition lower_ascii (s : str) : str := lower_ascii_char <$> s.

(** [s.replace(old, new)] where [old] and [new] are one character long,
    the only way the scripts call it. *)
Definition replace (old new : N) (s : str) : str :=
  (fun c => if bool_decide (c = old) then new else c) <$> s.

(** [s.startswith(p)]. *)
Fixpoint startswith (p s : str) : bool :=
  match p, s with
  | [], _ => true
  | _ :: _, [] => false
  | a :: p', b :: s' => bool_decide (a = b) && startswith p' s'
  end.

(** [sub in s] on strings: [sub] occurs in [s] as a contiguous run. *)
Fixpoint contains (sub s : str) : bool :=
  startswith sub s ||
  match s with
  | [] => false
  | _ :: s' => contains sub s'
  end.

End PyStr.

(** ** The legend data model ([cmaas_utils.types]) *)

Module Types.

Inductive MapUnitType : Set := POINT | LINE | POLYGON | UNKNOWN.

#[global] Instance MapUnitType_eq_dec : EqDecision MapUnitType :=
  ltac:(solve_decision).

(** A rectangle as the JSON carries it: a list of corner points, each a
    list of pixel coordinates. The scripts only copy it. *)
Definition BBox : Type := list (list Z).

(** Modelled from the spec: the [MapUnit] class of [cmaas_utils], which
    is not part of this repository. Its fields are the ones the scripts
    read or write: [label] and [abbreviation] are text (the preparer
    compares [label] with the empty string and lower-cases whichever of
    the two it keeps), [description] is an optional rectangle. *)
Record MapUnit : Type := mkMapUnit {
  type : MapUnitType;
  label : str;
  abbreviation : str;
  label_bbox : BBox;
  description : option BBox;
  color : str;
  pattern : str
}.

(** Attribute assignments [unit.label = v] and [unit.type = v]. *)
Definition set_label (v : str) (u : MapUnit) : MapUnit :=
  mkMapUnit (type u) v (abbreviation u) (label_bbox u) (description u)
            (color u) (pattern u).

Definition set_type (v : MapUnitType) (u : MapUnit) : MapUnit :=
  mkMapUnit v (label u) (abbreviation u) (label_bbox u) (description u)
            (color u) (pattern u).

Record Provenance : Type := mkProvenance {
  name : str;
  version : str
}.

Record Legend : Type := mkLegend {
  provenance : Provenance;
  features : list MapUnit
}.

End Types.

(** The known-labels dictionary: keys [Points], [Lines], [Polygons],
    [Unknown], each holding a list of strings. *)
Module KnownLabels.
Record t : Type := mk {
  Points : list str;
  Lines : list str;
  Polygons : list str;
  Unknown : list str
}.
End KnownLabels.

(** The statistics dictionary of the preparer. *)
Module StatDict.
Record t : Type := mk {
  Points : list str;
  Lines : list str;
  Likely_Lines : list str;
  Polygons : list str;
  Likely_Polygons : list str;
  Unknown : list str
}.

Definition empty : t := mk [] [] [] [] [] [].

(** [stat_dict[key].append(x)], one function per key. *)
Definition append_Points (x : str) (d : t) : t :=
  mk (Points d ++ [x]) (Lines d) (Likely_Lines d) (Polygons d)
     (Likely_Polygons d) (Unknown d).
Definition append_Lines (x : str) (d : t) : t :=
  mk (Points d) (Lines d ++ [x]) (Likely_Lines d) (Polygons d)
     (Likely_Polygons d) (Unknown d).
Definition append_Likely_Lines (x : str) (d : t) : t :=
  mk (Points d) (Lines d) (Likely_Lines d ++ [x]) (Polygons d)
     (Likely_Polygons d) (Unknown d).
Definition append_Polygons (x : str) (d : t) : t :=
  mk (Points d) (Lines d) (Likely_Lines d) (Polygons d ++ [x])
     (Likely_Polygons d) (Unknown d).
Definition append_Likely_Polygons (x : str) (d : t) : t :=
  mk (Points d) (Lines d) (Likely_Lines d) (Polygons d)
     (Likely_Polygons d ++ [x]) (Unknown d).
Definition append_Unknown (x : str) (d : t) : t :=
  mk (Points d) (Lines d) (Likely_Lines d) (Polygons d)
     (Likely_Polygons d) (Unknown d ++ [x]).
End StatDict.

(** ** [prep_stepup.py] *)

Module PrepStepup.
Import Types.

(** What the loop of [main] carries from one feature to the next: the
    statistics dictionary and the feature list of the output legend. *)
Record LoopState : Type := mkLoop {
  stat_dict : StatDict.t;
  output_features : list MapUnit
}.

(** One arm of the cascade: note the statistic, assign the type, append
    the feature to the output legend. *)
Definition emit (note : StatDict.t -> StatDict.t) (ty : MapUnitType)
    (feature : MapUnit) (st : LoopState) : LoopState :=
  mkLoop (note (stat_dict st))
         (output_features st ++ [set_type ty feature]).

(** The [for line in true_labels['Lines']] loop with its [break]: the
    first entry that occurs in [label], if there is one. *)
Fixpoint scan_lines (lines : list str) (label : str) : option str :=
  match lines with
  | [] => None
  | line :: rest =>
      if PyStr.contains line label then Some line
      else scan_lines rest label
  end.

(** Lines 121-123: the abbreviation fallback and the type reset. *)
Definition preprocess (feature : MapUnit) : MapUnit :=
  let feature :=
    if bool_decide (label feature = lit "") then
      set_label (abbreviation feature) feature
    else feature in
  set_type UNKNOWN feature.

(** The document [saveSteupUpJson] writes for the annotation tool. *)
Module StepUpJson.
Record Shape : Type := mkShape {
  label : str;
  points : BBox;
  group_id : option Z;
  shape_type : str;
  flags : list (str * str)
}.
Record t : Type := mk {
  version : str;
  flags_source : str;
  shapes : list Shape
}.
End StepUpJson.

(** What the loop of [saveSteupUpJson] carries: the shapes appended so far
    and the features with their labels rewritten. *)
Record SaveState : Type := mkSave {
  shapes_acc : list StepUpJson.Shape;
  saved_features : list MapUnit
}.

Section Scripts.

(** The built-in [str.lower]. *)
Variable lower : str -> str.

(** Lines 128-161: the decision cascade on a preprocessed feature. *)
Definition cascade (true_labels : KnownLabels.t) (feature : MapUnit)
    (st : LoopState) : LoopState :=
  let label := lower (Types.label feature) in
  if bool_decide (label ∈ KnownLabels.Points true_labels) then
    emit (StatDict.append_Points label) POINT feature st
  else if bool_decide (label ∈ KnownLabels.Lines true_labels) then
    emit (StatDict.append_Lines label) LINE feature st
  else if bool_decide (label ∈ KnownLabels.Polygons true_labels) then
    emit (StatDict.append_Polygons label) POLYGON feature st
  else if (PyStr.len (Types.label feature) <? 5)%nat then
    emit (StatDict.append_Likely_Polygons label) POLYGON feature st
  else
    match scan_lines (KnownLabels.Lines true_labels) label with
    | Some line =>
        emit (StatDict.append_Likely_Lines line) LINE feature st
    | None =>
        emit (StatDict.append_Unknown label) UNKNOWN feature st
    end.

(** The body of the inner loop of [main] (lines 121-161). *)
Definition classify_feature (true_labels : KnownLabels.t)
    (st : LoopState) (feature : MapUnit) : LoopState :=
  cascade true_labels (preprocess feature) st.

(** The inner loop over one legend (lines 119-162): a fresh output
    legend, the statistics carried over from the legends before. *)
Definition classify_legend (true_labels : KnownLabels.t)
    (stats : StatDict.t) (legend : Legend) : StatDict.t * Legend :=
  let st :=
    fold_left (classify_feature true_labels) (features legend)
              (mkLoop stats []) in
  (stat_dict st,
   mkLegend (mkProvenance (lit "label_me") (lit "0.0.2"))
            (output_features st)).

(** The outer loop (lines 116-162) over the loaded legends, in the order
    of the dictionary [stepup_legends]. *)
Fixpoint classify_all (true_labels : KnownLabels.t) (stats : StatDict.t)
    (stepup_legends : list (str * Legend))
    : StatDict.t * list (str * Legend) :=
  match stepup_legends with
  | [] => (stats, [])
  | (mapname, legend) :: rest =>
      let '(stats1, output_legend) :=
        classify_legend true_labels stats legend in
      let '(stats2, output_dict) :=
        classify_all true_labels stats1 rest in
      (stats2, (mapname, output_legend) :: output_dict)
  end.

(** [MapUnitType.to_str] belongs to [cmaas_utils]; the preparer only
    appends its result to the label. *)
Variable to_str : MapUnitType -> str.

(** The body of the loop of [saveSteupUpJson] (lines 66-74). *)
Definition save_unit (st : SaveState) (map_unit : MapUnit) : SaveState :=
  let map_unit :=
    set_label (PyStr.replace (chr " ") (chr "_") (Types.label map_unit))
              map_unit in
  let unit_label :=
    if bool_decide (type map_unit = UNKNOWN) then Types.label map_unit
    else Types.label map_unit ++ lit "_" ++ to_str (type map_unit) in
  let shapes :=
    shapes_acc st ++
    [StepUpJson.mkShape unit_label (label_bbox map_unit) None
                        (lit "rectangle") []] in
  let shapes :=
    match description map_unit with
    | Some region =>
        let unit_label := unit_label ++ lit "_desc" in
        shapes ++
        [StepUpJson.mkShape unit_label region None (lit "rectangle") []]
    | None => shapes
    end in
  mkSave shapes (saved_features st ++ [map_unit]).

(** [saveSteupUpJson(filepath, legend)]: the document written to
    [filepath], and the legend as the call leaves it. *)
Definition saveSteupUpJson (legend : Legend) : StepUpJson.t * Legend :=
  let st := fold_left save_unit (features legend) (mkSave [] []) in
  (StepUpJson.mk (lit "5.0.1") (lit "StepUp") (shapes_acc st),
   mkLegend (provenance legend) (saved_features st)).

(** [main]: the statistics, and the files written to the output directory
    as pairs of a file name and its document. *)
Definition main (true_labels : KnownLabels.t)
    (stepup_legends : list (str * Legend))
    : StatDict.t * list (str * StepUpJson.t) :=
  let '(stat_dict, output_dict) :=
    classify_all true_labels StatDict.empty stepup_legends in
  (stat_dict,
   map (fun entry : str * Legend =>
          (fst entry ++ lit ".json", fst (saveSteupUpJson (snd entry))))
       output_dict).

End Scripts.

End PrepStepup.

(** ** [gen_known_labels.py] *)

Module GenKnownLabels.
Import Types.

(** [true_labels[key].append(x)], one function per key the script
    appends to. *)
Definition append_Points (x : str) (d : KnownLabels.t) : KnownLabels.t :=
  KnownLabels.mk (KnownLabels.Points d ++ [x]) (KnownLabels.Lines d)
                 (KnownLabels.Polygons d) (KnownLabels.Unknown d).
Definition append_Lines (x : str) (d : KnownLabels.t) : KnownLabels.t :=
  KnownLabels.mk (KnownLabels.Points d) (KnownLabels.Lines d ++ [x])
                 (KnownLabels.Polygons d) (KnownLabels.Unknown d).
Definition append_Polygons (x : str) (d : KnownLabels.t)
    : KnownLabels.t :=
  KnownLabels.mk (KnownLabels.Points d) (KnownLabels.Lines d)
                 (KnownLabels.Polygons d ++ [x]) (KnownLabels.Unknown d).
Definition append_Unknown (x : str) (d : KnownLabels.t) : KnownLabels.t :=
  KnownLabels.mk (KnownLabels.Points d) (KnownLabels.Lines d)
                 (KnownLabels.Polygons d) (KnownLabels.Unknown d ++ [x]).

(** Line 78. *)
Definition known_lines : list str :=
  [lit "monocline"; lit "syncline"; lit "anticline"; lit "antiform";
   lit "synform"].

(** [list(set(l))]. *)
Definition unique (l : list str) : list str :=
  elements (list_to_set l : gset str).

Section Scripts.

(** The built-in [str.lower]. *)
Variable lower : str -> str.

(** The body of the inner loop (lines 68-75). *)
Definition add_feature (true_labels : KnownLabels.t) (feature : MapUnit)
    : KnownLabels.t :=
  match type feature with
  | POINT => append_Points (lower (label feature)) true_labels
  | LINE => append_Lines (lower (label feature)) true_labels
  | POLYGON => append_Polygons (lower (label feature)) true_labels
  | UNKNOWN => append_Unknown (lower (label feature)) true_labels
  end.

(** The two nested loops (lines 66-75). *)
Definition scan_legends (true_legends : list Legend)
    (true_labels : KnownLabels.t) : KnownLabels.t :=
  fold_left (fun d legend => fold_left add_feature (features legend) d)
            true_legends true_labels.

(** [main], from the loaded legends ([true_legends.values()]) to the
    dictionary written to the output file. *)
Definition main (true_legends : list Legend) : KnownLabels.t :=
  let true_labels := scan_legends true_legends (KnownLabels.mk [] [] [] []) in
  let true_labels :=
    fold_left (fun d line => append_Lines line d) known_lines true_labels in
  KnownLabels.mk (unique (KnownLabels.Points true_labels))
                 (unique (KnownLabels.Lines true_labels))
                 (unique (KnownLabels.Polygons true_labels))
                 (unique (KnownLabels.Unknown true_labels)).

End Scripts.

End GenKnownLabels.

(** ** [update_stepup.py] *)

Module UpdateStepup.
Import Types.

(** The fields of a validated catalog legend item that [saveStepUpJson]
    reads. [description] is handed to [MapUnit] as it is. *)
Module LegendItemResponse.
Record t : Type := mk {
  category : str;
  label : str;
  px_bbox : list Z;
  description : option BBox;
  abbreviation : str;
  color : str;
  pattern : str
}.
End LegendItemResponse.

(** The remote catalog, as the answers it gives to the calls of one run.
    [None] stands for a call that raises (a transport error, a status
    that [raise_for_status] rejects, a malformed answer). *)
Record Remote : Type := mkRemote {
  (** [POST /user/me/register]: the registration id. *)
  register_answer : option str;
  (** [DELETE /user/me/register/{id}]. *)
  unregister_answer : option unit;
  (** [retrieve_cog_id]: the [cog_url] of an inventory identifier. *)
  cog_url_answer : str -> option str;
  (** [retrieve_cog_legend_items] followed by
      [validate_cog_legend_items_response], by content id. *)
  legend_items_answer : str -> option (list LegendItemResponse.t);
  (** [requests.get(url)] of the image: status code and content. *)
  image_answer : str -> option (Z * str)
}.

(** The calls a run makes, in order. *)
Inductive Call : Type :=
| Register
| Unregister
| LookupCog (ngmdb_id : str)
| LegendItems (cog_id : str)
| ImageGet (url : str).

(** The data directory: [legends/stepup_{id}.json] and
    [images/stepup_{id}.tif], by identifier. *)
Record Disk : Type := mkDisk {
  legends : gmap str Legend;
  images : gmap str str
}.

(** One row of the inventory: [proddesc] and [label_completed(1=yes)],
    the latter [None] where the cell is empty. *)
Record Row : Type := mkRow {
  proddesc : str;
  label_completed : option str
}.

(** The state of a run. *)
Record SyncState : Type := mkSync {
  disk : Disk;
  bad_ids : list str;
  calls : list Call
}.

(** How a piece of the loop body ends: it falls through to the next
    statement, it executes [continue], or an exception leaves [main]. *)
Inductive Flow : Type :=
| Go (st : SyncState)
| Continue (st : SyncState)
| Raised (st : SyncState).

Definition log_call (c : Call) (st : SyncState) : SyncState :=
  mkSync (disk st) (bad_ids st) (calls st ++ [c]).

Definition append_bad_id (ngmdb_id : str) (st : SyncState) : SyncState :=
  mkSync (disk st) (bad_ids st ++ [ngmdb_id]) (calls st).

Definition write_legend (ngmdb_id : str) (lgd : Legend) (st : SyncState)
    : SyncState :=
  mkSync (mkDisk (<[ngmdb_id := lgd]> (legends (disk st))) (images (disk st)))
         (bad_ids st) (calls st).

Definition write_image (ngmdb_id : str) (content : str)
    (st : SyncState) : SyncState :=
  mkSync (mkDisk (legends (disk st)) (<[ngmdb_id := content]> (images (disk st))))
         (bad_ids st) (calls st).

(** [os.path.exists] on the two files of an identifier. *)
Definition legend_exists (ngmdb_id : str) (st : SyncState) : bool :=
  bool_decide (is_Some (legends (disk st) !! ngmdb_id)).

Definition image_exists (ngmdb_id : str) (st : SyncState) : bool :=
  bool_decide (is_Some (images (disk st) !! ngmdb_id)).

(** [s.split(sep)[-1]]: what follows the last [sep]. [acc] is the piece
    being read. *)
Fixpoint split_last (sep : N) (s acc : str) : str :=
  match s with
  | [] => acc
  | c :: s' =>
      if bool_decide (c = sep) then split_last sep s' []
      else split_last sep s' (acc ++ [c])
  end.

(** [s.split(sep)[0]]: what precedes the first [sep]. *)
Fixpoint split_first (sep : N) (s : str) : str :=
  match s with
  | [] => []
  | c :: s' =>
      if bool_decide (c = sep) then [] else c :: split_first sep s'
  end.

(** Line 240. *)
Definition cog_id_of (cog_url : str) : str :=
  split_first (chr ".") (split_last (chr "/") cog_url []).

(** [download_ngmdb_tif]: the outer [None] is an exception of
    [requests.get], the inner [None] the [return] without a value. *)
Definition download_ngmdb_tif (cdr : Remote) (url : str)
    : option (option str) :=
  match image_answer cdr url with
  | None => None
  | Some (status_code, content) =>
      if bool_decide (status_code ≠ 200%Z) then Some None
      else Some (Some content)
  end.

Section Sync.

(** [MapUnitType.from_str] belongs to [cmaas_utils]. *)
Variable from_str : str -> MapUnitType.

(** [saveStepUpJson]: the legend whose dump is written. *)
Definition saveStepUpJson (cdr_legend : list LegendItemResponse.t) : Legend :=
  mkLegend (mkProvenance (lit "labelme") (lit "0.0.1"))
    (fold_left
       (fun feats feature =>
          feats ++
          [mkMapUnit (from_str (LegendItemResponse.category feature))
                     (LegendItemResponse.label feature)
                     (LegendItemResponse.abbreviation feature)
                     [take 2 (LegendItemResponse.px_bbox feature);
                      drop 2 (LegendItemResponse.px_bbox feature)]
                     (LegendItemResponse.description feature)
                     (LegendItemResponse.color feature)
                     (LegendItemResponse.pattern feature)])
       cdr_legend []).

(** Lines 248-257: retrieve the legend if needed. *)
Definition fetch_legend (cdr : Remote) (ngmdb_id cog_id : str)
    (st : SyncState) : Flow :=
  if negb (legend_exists ngmdb_id st) then
    let st := log_call (LegendItems cog_id) st in
    match legend_items_answer cdr cog_id with
    | None => Raised st
    | Some legend_items =>
        if bool_decide (length legend_items = 0) then
          Continue (append_bad_id ngmdb_id st)
        else Go (write_legend ngmdb_id (saveStepUpJson legend_items) st)
    end
  else Go st.

(** Lines 259-264: retrieve the image if needed. [open(..., 'wb')] creates
    the file before [file.write(img)] runs, so a write of [None] leaves an
    empty file behind its [TypeError]. *)
Definition fetch_image (cdr : Remote) (ngmdb_id cog_url : str)
    (st : SyncState) : Flow :=
  if negb (image_exists ngmdb_id st) then
    let st := log_call (ImageGet cog_url) st in
    match download_ngmdb_tif cdr cog_url with
    | None => Raised st
    | Some None => Raised (write_image ngmdb_id [] st)
    | Some (Some img) => Go (write_image ngmdb_id img st)
    end
  else Go st.

(** The body of the loop of [main] (lines 226-266). *)
Definition process_row (cdr : Remote) (st : SyncState) (row : Row) : Flow :=
  let ngmdb_id := proddesc row in
  if bool_decide (label_completed row ≠ Some (lit "1")) then Continue st
  else if legend_exists ngmdb_id st && image_exists ngmdb_id st then
    Continue st
  else
    let st := log_call (LookupCog ngmdb_id) st in
    match cog_url_answer cdr ngmdb_id with
    | None => Continue (append_bad_id ngmdb_id st)
    | Some cog_url =>
        let cog_id := cog_id_of cog_url in
        match fetch_legend cdr ngmdb_id cog_id st with
        | Go st => fetch_image cdr ngmdb_id cog_url st
        | flow => flow
        end
    end.

(** The loop over the rows: [Go] and [Continue] both move on to the next
    row, [Raised] ends the loop. The result is [Go] when the loop runs to
    its end. *)
Fixpoint process_rows (cdr : Remote) (st : SyncState) (rows : list Row)
    : Flow :=
  match rows with
  | [] => Go st
  | row :: rest =>
      match process_row cdr st row with
      | Go st' | Continue st' => process_rows cdr st' rest
      | Raised st' => Raised st'
      end
  end.

(** [main]: the rows with a filled flag, between [register] and
    [unregister]. *)
Definition main (cdr : Remote) (inventory : list Row) (data : Disk) : Flow :=
  let inv_df := filter (fun row => is_Some (label_completed row)) inventory in
  let st := log_call Register (mkSync data [] []) in
  match register_answer cdr with
  | None => Raised st
  | Some _ =>
      match process_rows cdr st inv_df with
      | Go st | Continue st =>
          let st := log_call Unregister st in
          match unregister_answer cdr with
          | None => Raised st
          | Some _ => Go st
          end
      | Raised st => Raised st
      end
  end.

End Sync.

End UpdateStepup.

(** ** Command line and legend loading ([prep_stepup.py],
       [gen_known_labels.py]) *)

(** The functions of [os.path] (POSIX flavour) and of [str] that the
    loading code calls. *)
Module OsPath.

(** The slices [s[n:]] and [s[:n]] are [drop n s] and [take n s]. *)

(** [s.rfind(c)] for a one-character [c]: the last index of [c], [None]
    for Python's [-1]. *)
Fixpoint rfind (c : N) (s : str) : option nat :=
  match s with
  | [] => None
  | a :: s' =>
      match rfind c s' with
      | Some i => Some (S i)
      | None => if bool_decide (a = c) then Some 0 else None
      end
  end.

(** [s.endswith(suffix)]. *)
Definition endswith (suffix s : str) : bool :=
  if (length s <? length suffix)%nat then false
  else bool_decide (drop (length s - length suffix) s = suffix).

(** [os.path.basename(p)]: [p[p.rfind('/') + 1:]]. *)
Definition basename (p : str) : str :=
  match rfind (chr "/") p with
  | Some i => drop (S i) p
  | None => p
  end.

(** Some character of [s] is not a dot. *)
Fixpoint has_non_dot (s : str) : bool :=
  match s with
  | [] => false
  | c :: s' => negb (bool_decide (c = chr ".")) || has_non_dot s'
  end.

(** [os.path.splitext(p)]: the last dot splits the path when it comes
    after the last slash and the file name has a character other than a
    dot before it; otherwise the extension is empty. *)
Definition splitext (p : str) : str * str :=
  let filenameIndex :=
    match rfind (chr "/") p with Some i => S i | None => 0 end in
  match rfind (chr ".") p with
  | Some dotIndex =>
      if (filenameIndex <=? dotIndex)%nat &&
         has_non_dot (take (dotIndex - filenameIndex) (drop filenameIndex p))
      then (take dotIndex p, drop dotIndex p)
      else (p, lit "")
  | None => (p, lit "")
  end.

(** [os.path.join(a, b)]. *)
Definition join (a b : str) : str :=
  if PyStr.startswith (lit "/") b then b
  else if bool_decide (a = lit "") || endswith (lit "/") a then a ++ b
  else a ++ lit "/" ++ b.

End OsPath.

Module Loader.
Import Types.

(** What the loading code asks the file system. *)
Record FileSystem : Type := mkFS {
  exists_ : str -> bool;
  isdir : str -> bool;
  isfile : str -> bool;
  listdir : str -> list str;
  (** [Legend.parse_file]: [None] when it raises. *)
  parse_file : str -> option Legend
}.

(** [parse_data]: the path, or [None] for the [ArgumentTypeError]. *)
Definition parse_data (fs : FileSystem) (path : str) : option str :=
  if negb (exists_ fs path) then None else Some path.

(** The body of the loop of [post_parse_data] (lines 32-35). *)
Definition expand_path (fs : FileSystem) (data_files : list str)
    (path : str) : list str :=
  let data_files :=
    if isdir fs path then
      data_files ++
      map (OsPath.join path)
          (filter (fun f => OsPath.endswith (lit ".json") f = true)
                  (listdir fs path))
    else data_files in
  if isfile fs path && OsPath.endswith (lit ".json") path then
    data_files ++ [path]
  else data_files.

(** [post_parse_data]: the files found, or [None] for the
    [ArgumentTypeError] raised when there is none. *)
Definition post_parse_data (fs : FileSystem) (data : list str)
    : option (list str) :=
  let data_files := fold_left (expand_path fs) data [] in
  if bool_decide (length data_files = 0) then None else Some data_files.

(** The [--data] part of [parse_command_line]: [nargs='+'] wants one path
    at least, [parse_data] checks each, [post_parse_data] expands them. *)
Definition parse_command_line_data (fs : FileSystem) (argv : list str)
    : option (list str) :=
  if bool_decide (argv = []) then None
  else
    match mapM (parse_data fs) argv with
    | None => None
    | Some data => post_parse_data fs data
    end.

(** The name under which [loadLegend] files a legend. *)
Definition map_name (filepath : str) : str :=
  OsPath.basename (fst (OsPath.splitext filepath)).

(** [loadLegend]. *)
Definition loadLegend (fs : FileSystem) (filepath : str)
    : option (Legend * str) :=
  match parse_file fs filepath with
  | None => None
  | Some legend => Some (legend, map_name filepath)
  end.

(** A Python dictionary with its insertion order: [d[k] = v] replaces the
    value of a key where it stands and appends a new key. *)
Fixpoint dict_set (k : str) (v : Legend) (d : list (str * Legend))
    : list (str * Legend) :=
  match d with
  | [] => [(k, v)]
  | (k', v') :: rest =>
      if bool_decide (k' = k) then (k, v) :: rest
      else (k', v') :: dict_set k v rest
  end.

(** [d.get(k)]. *)
Fixpoint dict_get (k : str) (d : list (str * Legend))
    : option Legend :=
  match d with
  | [] => None
  | (k', v') :: rest =>
      if bool_decide (k' = k) then Some v' else dict_get k rest
  end.

(** The second loop of [parallelLoadLegends] (lines 90-92): the results
    are taken in the order of the submitted paths, and the first task that
    raised ends the call. *)
Fixpoint collect_legends (fs : FileSystem) (data : list str)
    (legends : list (str * Legend)) : option (list (str * Legend)) :=
  match data with
  | [] => Some legends
  | filepath :: rest =>
      match loadLegend fs filepath with
      | None => None
      | Some (legend, map_name) =>
          collect_legends fs rest (dict_set map_name legend legends)
      end
  end.

(** [parallelLoadLegends]. *)
Definition parallelLoadLegends (fs : FileSystem) (data : list str)
    : option (list (str * Legend)) :=
  collect_legends fs data [].

End Loader.
(** * Properties *)

(** ** Vocabulary of the statements *)

(** What is known of the built-in [str.lower] where a statement needs
    it: on ASCII text it is [PyStr.lower_ascii], and lower-casing twice
    is lower-casing once. *)
Definition isascii (s : str) : bool := forallb (fun c => (c <? 128)%N) s.

Definition lowers_ascii (lower : str -> str) : Prop :=
  ∀ s, isascii s = true → lower s = PyStr.lower_ascii s.

Definition lower_idempotent (lower : str -> str) : Prop :=
  ∀ s, lower (lower s) = lower s.

(** [sub] occurs in [s]: some text before it, some text after it. *)
Definition occurs_in (sub s : str) : Prop :=
  ∃ before after, s = before ++ sub ++ after.

(** [line] is the first entry of [lines] that occurs in [label]. *)
Definition first_match (line : str) (lines : list str)
    (label : str) : Prop :=
  ∃ skipped rest,
    lines = skipped ++ line :: rest ∧
    occurs_in line label ∧
    Forall (fun l => ¬ occurs_in l label) skipped.

(** The unit appended for [u]: [u] after the abbreviation fallback, with
    some type. *)
Definition classified_from (u v : Types.MapUnit) : Prop :=
  ∃ ty, v = Types.set_type ty (PrepStepup.preprocess u).

(** The bucket of the known-labels dictionary named after a type. *)
Definition bucket (ty : Types.MapUnitType) (d : KnownLabels.t)
    : list str :=
  match ty with
  | Types.POINT => KnownLabels.Points d
  | Types.LINE => KnownLabels.Lines d
  | Types.POLYGON => KnownLabels.Polygons d
  | Types.UNKNOWN => KnownLabels.Unknown d
  end.

(** [s] is the lower-cased label of a feature of type [ty] of one of the
    legends. *)
Definition observed (lower : str -> str) (ty : Types.MapUnitType)
    (true_legends : list Types.Legend) (s : str) : Prop :=
  ∃ legend feature,
    legend ∈ true_legends ∧ feature ∈ Types.features legend ∧
    Types.type feature = ty ∧ lower (Types.label feature) = s.

(** [t] is [s] with every space turned into an underscore and nothing
    else changed. *)
Definition underscored (s t : str) : Prop :=
  length t = length s ∧
  ∀ i, t !! i =
       match s !! i with
       | Some c => if bool_decide (c = chr " ") then Some (chr "_")
                   else Some c
       | None => None
       end.

(** A rectangle record of the annotation tool. *)
Definition rectangle (l : str) (region : Types.BBox)
    : PrepStepup.StepUpJson.Shape :=
  PrepStepup.StepUpJson.mkShape l region None (lit "rectangle") [].

(** The label of the first record of a unit: the label with underscores
    for spaces, followed by the type unless the type is Unknown. *)
Definition shape_label (to_str : Types.MapUnitType -> str)
    (u : Types.MapUnit) : str :=
  let l := PyStr.replace (chr " ") (chr "_") (Types.label u) in
  match Types.type u with
  | Types.UNKNOWN => l
  | ty => l ++ lit "_" ++ to_str ty
  end.

(** The records of a unit: one for the label box and, when there is a
    description region, one for it, labelled like the first with [_desc]
    appended. *)
Definition shapes_of (to_str : Types.MapUnitType -> str)
    (u : Types.MapUnit) : list PrepStepup.StepUpJson.Shape :=
  rectangle (shape_label to_str u) (Types.label_bbox u) ::
  match Types.description u with
  | Some region => [rectangle (shape_label to_str u ++ lit "_desc") region]
  | None => []
  end.

(** Every identifier has both its legend file and its image file, or
    neither. *)
Definition paired (d : UpdateStepup.Disk) : Prop :=
  ∀ ngmdb_id,
    is_Some (UpdateStepup.legends d !! ngmdb_id) ↔
    is_Some (UpdateStepup.images d !! ngmdb_id).

(** The state a run ends in, however it ends. *)
Definition state_of (flow : UpdateStepup.Flow) : UpdateStepup.SyncState :=
  match flow with
  | UpdateStepup.Go st | UpdateStepup.Continue st
  | UpdateStepup.Raised st => st
  end.

(** The number of statistics noted so far, over the six lists. *)
Definition stat_total (d : StatDict.t) : nat :=
  length (StatDict.Points d) + length (StatDict.Lines d) +
  length (StatDict.Likely_Lines d) + length (StatDict.Polygons d) +
  length (StatDict.Likely_Polygons d) + length (StatDict.Unknown d).

(** What the loop body appends for one feature when the output legend is
    still empty. *)
Definition classified (lower : str -> str) (true_labels : KnownLabels.t)
    (u : Types.MapUnit) : list Types.MapUnit :=
  PrepStepup.output_features
    (PrepStepup.classify_feature lower true_labels
       (PrepStepup.mkLoop StatDict.empty []) u).

(** Two dictionaries whose Points, Lines and Polygons buckets hold the same
    strings, in whatever order and however often. *)
Definition same_known (a b : KnownLabels.t) : Prop :=
  (∀ s, s ∈ KnownLabels.Points a ↔ s ∈ KnownLabels.Points b) ∧
  (∀ s, s ∈ KnownLabels.Lines a ↔ s ∈ KnownLabels.Lines b) ∧
  (∀ s, s ∈ KnownLabels.Polygons a ↔ s ∈ KnownLabels.Polygons b).



(** The text before a file name: nothing, or a directory and a slash. *)
Definition dir_prefix (pre : str) : Prop :=
  pre = lit "" ∨ ∃ dir, pre = dir ++ lit "/".

(** Nothing on the first disk is missing or different on the second. *)
Definition disk_le (d d' : UpdateStepup.Disk) : Prop :=
  UpdateStepup.legends d ⊆ UpdateStepup.legends d' ∧
  UpdateStepup.images d ⊆ UpdateStepup.images d'.

(** The inventory marks the identifier as completed. *)
Definition flagged (inventory : list UpdateStepup.Row) (ngmdb_id : str)
    : Prop :=
  ∃ row, row ∈ inventory ∧ UpdateStepup.proddesc row = ngmdb_id ∧
         UpdateStepup.label_completed row = Some (lit "1").

(** The legend of a row is in place when the image step starts: it was
    there already, or a non-empty list of items was fetched and saved. *)
Definition legend_ready (from_str : str -> Types.MapUnitType)
    (cdr : UpdateStepup.Remote) (ngmdb_id cog_url : str)
    (st1 st2 : UpdateStepup.SyncState) : Prop :=
  (is_Some (UpdateStepup.legends (UpdateStepup.disk st1) !! ngmdb_id) ∧
   st2 = st1) ∨
  (UpdateStepup.legends (UpdateStepup.disk st1) !! ngmdb_id = None ∧
   ∃ items,
     UpdateStepup.legend_items_answer cdr (UpdateStepup.cog_id_of cog_url) =
       Some items ∧
     items ≠ [] ∧
     st2 =
       UpdateStepup.write_legend ngmdb_id
         (UpdateStepup.saveStepUpJson from_str items)
         (UpdateStepup.log_call
            (UpdateStepup.LegendItems (UpdateStepup.cog_id_of cog_url))
            st1)).

(** The ways a row of the inventory can go, with the state each leaves. *)
Inductive row_outcome (from_str : str -> Types.MapUnitType)
    (cdr : UpdateStepup.Remote) (row : UpdateStepup.Row)
    (st : UpdateStepup.SyncState) : UpdateStepup.Flow -> Prop :=
| row_not_flagged :
    UpdateStepup.label_completed row ≠ Some (lit "1") →
    row_outcome from_str cdr row st (UpdateStepup.Continue st)
| row_present :
    UpdateStepup.label_completed row = Some (lit "1") →
    is_Some (UpdateStepup.legends (UpdateStepup.disk st)
               !! UpdateStepup.proddesc row) →
    is_Some (UpdateStepup.images (UpdateStepup.disk st)
               !! UpdateStepup.proddesc row) →
    row_outcome from_str cdr row st (UpdateStepup.Continue st)
| row_lookup_failed :
    UpdateStepup.label_completed row = Some (lit "1") →
    UpdateStepup.cog_url_answer cdr (UpdateStepup.proddesc row) = None →
    row_outcome from_str cdr row st
      (UpdateStepup.Continue
         (UpdateStepup.append_bad_id (UpdateStepup.proddesc row)
            (UpdateStepup.log_call
               (UpdateStepup.LookupCog (UpdateStepup.proddesc row)) st)))
| row_legend_raised cog_url :
    UpdateStepup.label_completed row = Some (lit "1") →
    UpdateStepup.cog_url_answer cdr (UpdateStepup.proddesc row) =
      Some cog_url →
    UpdateStepup.legends (UpdateStepup.disk st)
      !! UpdateStepup.proddesc row = None →
    UpdateStepup.legend_items_answer cdr (UpdateStepup.cog_id_of cog_url) =
      None →
    row_outcome from_str cdr row st
      (UpdateStepup.Raised
         (UpdateStepup.log_call
            (UpdateStepup.LegendItems (UpdateStepup.cog_id_of cog_url))
            (UpdateStepup.log_call
               (UpdateStepup.LookupCog (UpdateStepup.proddesc row)) st)))
| row_legend_empty cog_url :
    UpdateStepup.label_completed row = Some (lit "1") →
    UpdateStepup.cog_url_answer cdr (UpdateStepup.proddesc row) =
      Some cog_url →
    UpdateStepup.legends (UpdateStepup.disk st)
      !! UpdateStepup.proddesc row = None →
    UpdateStepup.legend_items_answer cdr (UpdateStepup.cog_id_of cog_url) =
      Some [] →
    row_outcome from_str cdr row st
      (UpdateStepup.Continue
         (UpdateStepup.append_bad_id (UpdateStepup.proddesc row)
            (UpdateStepup.log_call
               (UpdateStepup.LegendItems (UpdateStepup.cog_id_of cog_url))
               (UpdateStepup.log_call
                  (UpdateStepup.LookupCog (UpdateStepup.proddesc row))
                  st))))
| row_image_present cog_url st2 :
    UpdateStepup.label_completed row = Some (lit "1") →
    UpdateStepup.cog_url_answer cdr (UpdateStepup.proddesc row) =
      Some cog_url →
    legend_ready from_str cdr (UpdateStepup.proddesc row) cog_url
      (UpdateStepup.log_call
         (UpdateStepup.LookupCog (UpdateStepup.proddesc row)) st) st2 →
    is_Some (UpdateStepup.images (UpdateStepup.disk st2)
               !! UpdateStepup.proddesc row) →
    row_outcome from_str cdr row st (UpdateStepup.Go st2)
| row_image_raised cog_url st2 :
    UpdateStepup.label_completed row = Some (lit "1") →
    UpdateStepup.cog_url_answer cdr (UpdateStepup.proddesc row) =
      Some cog_url →
    legend_ready from_str cdr (UpdateStepup.proddesc row) cog_url
      (UpdateStepup.log_call
         (UpdateStepup.LookupCog (UpdateStepup.proddesc row)) st) st2 →
    UpdateStepup.images (UpdateStepup.disk st2)
      !! UpdateStepup.proddesc row = None →
    UpdateStepup.image_answer cdr cog_url = None →
    row_outcome from_str cdr row st
      (UpdateStepup.Raised
         (UpdateStepup.log_call (UpdateStepup.ImageGet cog_url) st2))
| row_image_refused cog_url st2 status_code content :
    UpdateStepup.label_completed row = Some (lit "1") →
    UpdateStepup.cog_url_answer cdr (UpdateStepup.proddesc row) =
      Some cog_url →
    legend_ready from_str cdr (UpdateStepup.proddesc row) cog_url
      (UpdateStepup.log_call
         (UpdateStepup.LookupCog (UpdateStepup.proddesc row)) st) st2 →
    UpdateStepup.images (UpdateStepup.disk st2)
      !! UpdateStepup.proddesc row = None →
    UpdateStepup.image_answer cdr cog_url = Some (status_code, content) →
    status_code ≠ 200%Z →
    row_outcome from_str cdr row st
      (UpdateStepup.Raised
         (UpdateStepup.write_image (UpdateStepup.proddesc row) []
            (UpdateStepup.log_call (UpdateStepup.ImageGet cog_url) st2)))
| row_image_saved cog_url st2 content :
    UpdateStepup.label_completed row = Some (lit "1") →
    UpdateStepup.cog_url_answer cdr (UpdateStepup.proddesc row) =
      Some cog_url →
    legend_ready from_str cdr (UpdateStepup.proddesc row) cog_url
      (UpdateStepup.log_call
         (UpdateStepup.LookupCog (UpdateStepup.proddesc row)) st) st2 →
    UpdateStepup.images (UpdateStepup.disk st2)
      !! UpdateStepup.proddesc row = None →
    UpdateStepup.image_answer cdr cog_url = Some (200%Z, content) →
    row_outcome from_str cdr row st
      (UpdateStepup.Go
         (UpdateStepup.write_image (UpdateStepup.proddesc row) content
            (UpdateStepup.log_call (UpdateStepup.ImageGet cog_url) st2))).

(** What holds between a state of a run and any later state of it: files
    and notes are only added, a bad identifier is a flagged one that was
    looked up, and a legend file that was added has features. *)
Definition run_extends (inventory : list UpdateStepup.Row)
    (st st' : UpdateStepup.SyncState) : Prop :=
  disk_le (UpdateStepup.disk st) (UpdateStepup.disk st') ∧
  (∀ c, c ∈ UpdateStepup.calls st → c ∈ UpdateStepup.calls st') ∧
  (∀ i, i ∈ UpdateStepup.bad_ids st → i ∈ UpdateStepup.bad_ids st') ∧
  (∀ i, i ∈ UpdateStepup.bad_ids st' →
        i ∈ UpdateStepup.bad_ids st ∨
        (flagged inventory i ∧
         UpdateStepup.LookupCog i ∈ UpdateStepup.calls st')) ∧
  (∀ i lgd,
     UpdateStepup.legends (UpdateStepup.disk st') !! i = Some lgd →
     UpdateStepup.legends (UpdateStepup.disk st) !! i = Some lgd ∨
     Types.features lgd ≠ []).

(** What holds in addition when no exception came in between: an image
    file that was added holds the body of an answer with status 200. *)
Definition images_from_ok (cdr : UpdateStepup.Remote)
    (st st' : UpdateStepup.SyncState) : Prop :=
  ∀ i content,
    UpdateStepup.images (UpdateStepup.disk st') !! i = Some content →
    UpdateStepup.images (UpdateStepup.disk st) !! i = Some content ∨
    ∃ url, UpdateStepup.image_answer cdr url = Some (200%Z, content).

(** The row is settled in a state: its identifier is noted as bad, or
    both its files are there. *)
Definition settled (row : UpdateStepup.Row) (st : UpdateStepup.SyncState)
    : Prop :=
  UpdateStepup.proddesc row ∈ UpdateStepup.bad_ids st ∨
  (is_Some (UpdateStepup.legends (UpdateStepup.disk st)
              !! UpdateStepup.proddesc row) ∧
   is_Some (UpdateStepup.images (UpdateStepup.disk st)
              !! UpdateStepup.proddesc row)).

(** ** Data of the worked scenarios *)

(** The dictionary of the end-to-end scenario. *)
Definition scenario_labels : KnownLabels.t :=
  KnownLabels.mk [lit "spring"] [lit "fault"] [lit "qal"] [].

(** A dictionary whose buckets overlap: [dike] is both a point and a line
    label, [fault] both a line and a polygon label. *)
Definition overlapping_labels : KnownLabels.t :=
  KnownLabels.mk [lit "dike"] [lit "dike"; lit "fault"]
                 [lit "fault"; lit "qal"] [].

(** A unit as a loader hands it over, with nothing but a label. *)
Definition unit_labelled (l : str) : Types.MapUnit :=
  Types.mkMapUnit Types.UNKNOWN l (lit "") [[0; 0]; [10; 10]]%Z None
                  (lit "") (lit "").

Definition scenario_legend : Types.Legend :=
  Types.mkLegend (Types.mkProvenance (lit "labelme") (lit "0.0.1"))
    (map unit_labelled
         [lit "Spring"; lit "Normal Fault"; lit "Qal"; lit "Xyz";
          lit "AB"]).

Definition no_features : PrepStepup.LoopState :=
  PrepStepup.mkLoop StatDict.empty [].

(** An inventory of two completed maps, an empty data directory, and
    catalogs that answer the lookup of both maps and then differ: one
    fails on the legend items, one refuses the image with a 404, one
    cannot be reached for the image, one answers everything, and one fails
    every lookup. *)
Definition two_maps : list UpdateStepup.Row :=
  [UpdateStepup.mkRow (lit "1001") (Some (lit "1"));
   UpdateStepup.mkRow (lit "1002") (Some (lit "1"))].

Definition empty_disk : UpdateStepup.Disk := UpdateStepup.mkDisk ∅ ∅.

Definition sample_from_str (category : str) : Types.MapUnitType :=
  if bool_decide (category = lit "polygon") then Types.POLYGON
  else Types.UNKNOWN.

Definition sample_item : UpdateStepup.LegendItemResponse.t :=
  UpdateStepup.LegendItemResponse.mk (lit "polygon") (lit "Qal")
    [0; 0; 10; 10]%Z None (lit "Qal") (lit "") (lit "").

Definition sample_url (ngmdb_id : str) : option str :=
  Some (lit "https://cdr.example/cogs/" ++ ngmdb_id ++ lit ".cog.tif").

Definition catalog_legend_fails : UpdateStepup.Remote :=
  UpdateStepup.mkRemote (Some (lit "reg")) (Some tt) sample_url
    (fun _ => None) (fun _ => Some (200%Z, lit "tif")).

Definition catalog_image_refused : UpdateStepup.Remote :=
  UpdateStepup.mkRemote (Some (lit "reg")) (Some tt) sample_url
    (fun _ => Some [sample_item]) (fun _ => Some (404%Z, [])).

Definition catalog_image_unreachable : UpdateStepup.Remote :=
  UpdateStepup.mkRemote (Some (lit "reg")) (Some tt) sample_url
    (fun _ => Some [sample_item]) (fun _ => None).

Definition catalog_answers : UpdateStepup.Remote :=
  UpdateStepup.mkRemote (Some (lit "reg")) (Some tt) sample_url
    (fun _ => Some [sample_item]) (fun _ => Some (200%Z, lit "tif")).

Definition catalog_lookup_fails : UpdateStepup.Remote :=
  UpdateStepup.mkRemote (Some (lit "reg")) (Some tt) (fun _ => None)
    (fun _ => Some [sample_item]) (fun _ => Some (200%Z, lit "tif")).

(** The overlapping dictionary with its entries in another order and
    one of them repeated. *)
Definition shuffled_labels : KnownLabels.t :=
  KnownLabels.mk [lit "dike"; lit "dike"] [lit "fault"; lit "dike"]
                 [lit "qal"; lit "fault"; lit "qal"] [lit "other"].

(** A data directory with two legends and a stray file, and a second
    directory that holds a legend of the same name as one of the first. *)
Definition sample_fs : Loader.FileSystem :=
  Loader.mkFS
    (fun p => bool_decide (p ∈ [lit "maps"; lit "more"; lit "maps/a.json"]))
    (fun p => bool_decide (p ∈ [lit "maps"; lit "more"]))
    (fun p => bool_decide (p = lit "maps/a.json"))
    (fun p => if bool_decide (p = lit "maps")
              then [lit "a.json"; lit "b.json"; lit "c.txt"]
              else if bool_decide (p = lit "more") then [lit "a.json"]
              else [])
    (fun p => if bool_decide (p = lit "more/a.json")
              then Some (Types.mkLegend
                           (Types.mkProvenance (lit "labelme") (lit "2"))
                           [unit_labelled (lit "Fault")])
              else Some (Types.mkLegend
                           (Types.mkProvenance (lit "labelme") (lit "1"))
                           [unit_labelled (lit "Qal")])).

(** Two ground-truth legends: a fault line and a spring point in the
    first, an alluvium polygon in the second. *)
Definition truth_legends : list Types.Legend :=
  [Types.mkLegend (Types.mkProvenance (lit "truth") (lit "1"))
     [Types.set_type Types.LINE (unit_labelled (lit "Normal Fault"));
      Types.set_type Types.POINT (unit_labelled (lit "Spring"))];
   Types.mkLegend (Types.mkProvenance (lit "truth") (lit "1"))
     [Types.set_type Types.POLYGON (unit_labelled (lit "Qal"))]].

(** Two ground-truth legends whose line labels differ by case and by
    padding only: [ Normal Fault ] with a space on either side and
    [NORMAL FAULT] in the first, [normal fault] in the second, next to a
    point labelled like the first line. *)
Definition padded_legends : list Types.Legend :=
  [Types.mkLegend (Types.mkProvenance (lit "truth") (lit "1"))
     [Types.set_type Types.LINE (unit_labelled (lit " Normal Fault "));
      Types.set_type Types.LINE (unit_labelled (lit "NORMAL FAULT"))];
   Types.mkLegend (Types.mkProvenance (lit "truth") (lit "1"))
     [Types.set_type Types.LINE (unit_labelled (lit "normal fault"));
      Types.set_type Types.POINT (unit_labelled (lit " Normal Fault "))]].

(** A decidable fact about concrete data, settled by evaluation. *)
Ltac by_compute := apply (bool_decide_unpack _); vm_compute; exact I.
(** ** Python strings *)

Lemma startswith_spec (p s : str) :
  PyStr.startswith p s = true ↔ ∃ q, s = p ++ q.
Proof.
  revert s. induction p as [|a p IH]; intros s; simpl.
  - split; [intros _; exists s; reflexivity | reflexivity].
  - destruct s as [|b s].
    + split; [discriminate | intros [q Hq]; discriminate].
    + rewrite andb_true_iff, bool_decide_eq_true, IH. split.
      * intros [-> [q ->]]. exists q. reflexivity.
      * intros [q Hq]. injection Hq as -> ->.
        split; [reflexivity | exists q; reflexivity].
Qed.

Lemma contains_spec (sub s : str) :
  PyStr.contains sub s = true ↔ occurs_in sub s.
Proof.
  unfold occurs_in. induction s as [|c s IH].
  - simpl. rewrite orb_false_r, startswith_spec. split.
    + intros [q Hq]. exists [], q. exact Hq.
    + intros [[|b before] [after H]].
      * exists after. exact H.
      * discriminate.
  - cbn [PyStr.contains]. rewrite orb_true_iff, startswith_spec, IH. split.
    + intros [[q Hq] | [before [after H]]].
      * exists [], q. exact Hq.
      * exists (c :: before), after. rewrite H. reflexivity.
    + intros [[|b before] [after H]].
      * left. exists after. exact H.
      * right. injection H as -> ->.
        exists before, after. reflexivity.
Qed.

Lemma contains_false (sub s : str) :
  PyStr.contains sub s = false ↔ ¬ occurs_in sub s.
Proof.
  rewrite <- contains_spec. destruct (PyStr.contains sub s); split;
    congruence.
Qed.

Lemma lower_ascii_char_twice (c : N) :
  PyStr.lower_ascii_char (PyStr.lower_ascii_char c) =
  PyStr.lower_ascii_char c.
Proof.
  unfold PyStr.lower_ascii_char.
  destruct ((65 <=? c)%N && (c <=? 90)%N) eqn:E; [| now rewrite E].
  apply andb_true_iff in E as [E1 E2].
  apply N.leb_le in E1, E2.
  replace (c + 32 <=? 90)%N with false
    by (symmetry; apply N.leb_gt; lia).
  now rewrite andb_false_r.
Qed.

Lemma lower_ascii_idempotent : lower_idempotent PyStr.lower_ascii.
Proof.
  intros s. unfold PyStr.lower_ascii. rewrite <- list_fmap_compose.
  apply list_fmap_ext. intros i c _. apply lower_ascii_char_twice.
Qed.

Lemma lower_ascii_lowers_ascii : lowers_ascii PyStr.lower_ascii.
Proof. intros s _. reflexivity. Qed.

(** ** The substring scan of the preparer *)

Lemma scan_lines_Some (lines : list str) (label line : str) :
  PrepStepup.scan_lines lines label = Some line ↔
  first_match line lines label.
Proof.
  unfold first_match. induction lines as [|l lines IH]; simpl.
  - split; [discriminate |].
    intros (skipped & rest & H & _). destruct skipped; discriminate.
  - destruct (PyStr.contains l label) eqn:E.
    + split.
      * intros [= ->]. exists [], lines. split; [reflexivity |].
        split; [now apply contains_spec | constructor].
      * intros ([|x skipped] & rest & H & Hin & Hsk).
        -- injection H as -> _. reflexivity.
        -- injection H as -> _. apply Forall_cons_1 in Hsk as [Hx _].
           apply contains_spec in E. contradiction.
    + rewrite IH. apply contains_false in E. split.
      * intros (skipped & rest & -> & Hin & Hsk).
        exists (l :: skipped), rest. split; [reflexivity |].
        split; [exact Hin | now constructor].
      * intros ([|x skipped] & rest & H & Hin & Hsk).
        -- injection H as -> _. contradiction.
        -- injection H as -> ->. apply Forall_cons_1 in Hsk as [_ Hsk].
           exists skipped, rest. split; [reflexivity | split; assumption].
Qed.

Lemma scan_lines_None (lines : list str) (label : str) :
  PrepStepup.scan_lines lines label = None ↔
  ∀ line, line ∈ lines → ¬ occurs_in line label.
Proof.
  induction lines as [|l lines IH]; simpl.
  - split; [intros _ line H; inversion H | reflexivity].
  - destruct (PyStr.contains l label) eqn:E.
    + split; [discriminate |]. intros H. exfalso.
      apply (H l); [left | now apply contains_spec].
    + rewrite IH. apply contains_false in E. split.
      * intros H line Hin. apply elem_of_cons in Hin as [-> | Hin];
          [exact E | now apply H].
      * intros H line Hin. apply H. now right.
Qed.

(** ** The label classifier of the preparer *)

Section Classifier.
Import Types PrepStepup.

Variable lower : str -> str.
Variable true_labels : KnownLabels.t.

Lemma preprocess_label (feature : MapUnit) :
  label (preprocess feature) =
  if bool_decide (label feature = lit "") then abbreviation feature
  else label feature.
Proof. unfold preprocess. destruct (bool_decide _); reflexivity. Qed.

Lemma preprocess_set_type (ty : MapUnitType) (feature : MapUnit) :
  preprocess (set_type ty feature) = preprocess feature.
Proof.
  unfold preprocess. simpl. destruct (bool_decide _); reflexivity.
Qed.

(** Every arm of the cascade appends the feature it was given, with some
    type, and touches nothing else of the output. *)
Lemma cascade_emits (feature : MapUnit) (st : LoopState) :
  ∃ note ty, cascade lower true_labels feature st = emit note ty feature st.
Proof.
  unfold cascade.
  repeat (destruct (bool_decide _); [eauto |]).
  destruct (_ <? _)%nat; [eauto |].
  destruct (scan_lines _ _); eauto.
Qed.

Lemma classify_feature_output (st : LoopState) (feature : MapUnit) :
  ∃ ty, output_features (classify_feature lower true_labels st feature) =
        output_features st ++ [set_type ty (preprocess feature)].
Proof.
  unfold classify_feature.
  destruct (cascade_emits (preprocess feature) st) as (note & ty & ->).
  exists ty. reflexivity.
Qed.

(** The classifier calls [lower] on the labels it is given and on nothing
    else. *)
Lemma cascade_ext (lower' : str -> str) (feature : MapUnit)
    (st : LoopState) :
  lower (label feature) = lower' (label feature) →
  cascade lower true_labels feature st =
  cascade lower' true_labels feature st.
Proof. intros H. unfold cascade. rewrite H. reflexivity. Qed.

Lemma classify_fold_ext (lower' : str -> str) (feats : list MapUnit)
    (st : LoopState) :
  Forall (fun u => lower (label (preprocess u)) =
                   lower' (label (preprocess u))) feats →
  fold_left (classify_feature lower true_labels) feats st =
  fold_left (classify_feature lower' true_labels) feats st.
Proof.
  intros H. revert st. induction H as [|u feats Hu _ IH]; intros st;
    [reflexivity |].
  simpl. rewrite IH. unfold classify_feature at 2 4.
  rewrite (cascade_ext lower' _ _ Hu). reflexivity.
Qed.

Lemma classify_legend_ext (lower' : str -> str) (stats : StatDict.t)
    (legend : Legend) :
  Forall (fun u => lower (label (preprocess u)) =
                   lower' (label (preprocess u))) (features legend) →
  classify_legend lower true_labels stats legend =
  classify_legend lower' true_labels stats legend.
Proof.
  intros H. unfold classify_legend.
  rewrite (classify_fold_ext lower' _ _ H). reflexivity.
Qed.

End Classifier.

(** A bucket whose entries are all lower-case holds the lower-cased label
    exactly when it holds an entry equal to the label up to case. *)
Lemma lowercase_bucket_mem (lower : str -> str) (bucket : list str)
    (l : str) :
  (∀ e, e ∈ bucket → lower e = e) →
  lower l ∈ bucket ↔ ∃ e, e ∈ bucket ∧ lower e = lower l.
Proof.
  intros Hlow. split.
  - intros H. exists (lower l). split; [exact H | now apply Hlow].
  - intros (e & He & Heq). rewrite <- Heq, (Hlow e He). exact He.
Qed.

(** C2. A label whose lower-cased form is an entry of the Points, Lines or
    Polygons bucket gets the type of the first bucket, in the order
    Points, Lines, Polygons, that holds it, whatever the dictionary
    contains; the statistic of that bucket records the lower-cased
    label. *)
Theorem exact_match_first_bucket (lower : str -> str)
    (true_labels : KnownLabels.t)
    (st : PrepStepup.LoopState) (feature : Types.MapUnit) :
  let u := PrepStepup.preprocess feature in
  let l := lower (Types.label u) in
  (l ∈ KnownLabels.Points true_labels →
   PrepStepup.classify_feature lower true_labels st feature =
   PrepStepup.emit (StatDict.append_Points l) Types.POINT u st) ∧
  ((l ∉ KnownLabels.Points true_labels) →
   l ∈ KnownLabels.Lines true_labels →
   PrepStepup.classify_feature lower true_labels st feature =
   PrepStepup.emit (StatDict.append_Lines l) Types.LINE u st) ∧
  ((l ∉ KnownLabels.Points true_labels) →
   (l ∉ KnownLabels.Lines true_labels) →
   l ∈ KnownLabels.Polygons true_labels →
   PrepStepup.classify_feature lower true_labels st feature =
   PrepStepup.emit (StatDict.append_Polygons l) Types.POLYGON u st).
Proof.
  intros u l. unfold PrepStepup.classify_feature, PrepStepup.cascade.
  fold u. fold l. repeat split.
  - intros HP. rewrite (bool_decide_eq_true_2 _ HP). reflexivity.
  - intros HP HL. rewrite (bool_decide_eq_false_2 _ HP),
      (bool_decide_eq_true_2 _ HL). reflexivity.
  - intros HP HL HG. rewrite (bool_decide_eq_false_2 _ HP),
      (bool_decide_eq_false_2 _ HL), (bool_decide_eq_true_2 _ HG).
    reflexivity.
Qed.

(** C3. A label whose lower-cased form is in none of the three buckets:
    with fewer than 5 characters it becomes Polygon without any scan of
    the Lines bucket; with 5 or more it becomes Line as soon as an entry
    of the Lines bucket occurs in the lower-cased label, the first such
    entry being the one recorded; and Unknown when no entry occurs. *)
Theorem fallback_rules (lower : str -> str) (true_labels : KnownLabels.t)
    (st : PrepStepup.LoopState) (feature : Types.MapUnit) :
  let u := PrepStepup.preprocess feature in
  let l := lower (Types.label u) in
  (l ∉ KnownLabels.Points true_labels) →
  (l ∉ KnownLabels.Lines true_labels) →
  (l ∉ KnownLabels.Polygons true_labels) →
  (PyStr.len (Types.label u) < 5 →
   PrepStepup.classify_feature lower true_labels st feature =
   PrepStepup.emit (StatDict.append_Likely_Polygons l) Types.POLYGON
                   u st) ∧
  (5 ≤ PyStr.len (Types.label u) →
   (∃ line, line ∈ KnownLabels.Lines true_labels ∧ occurs_in line l) →
   ∃ line, first_match line (KnownLabels.Lines true_labels) l ∧
     PrepStepup.classify_feature lower true_labels st feature =
     PrepStepup.emit (StatDict.append_Likely_Lines line) Types.LINE
                     u st) ∧
  (5 ≤ PyStr.len (Types.label u) →
   (∀ line, line ∈ KnownLabels.Lines true_labels → ¬ occurs_in line l) →
   PrepStepup.classify_feature lower true_labels st feature =
   PrepStepup.emit (StatDict.append_Unknown l) Types.UNKNOWN u st).
Proof.
  intros u l HP HL HG.
  unfold PrepStepup.classify_feature, PrepStepup.cascade.
  fold u. fold l.
  rewrite (bool_decide_eq_false_2 _ HP), (bool_decide_eq_false_2 _ HL),
    (bool_decide_eq_false_2 _ HG).
  repeat split.
  - intros Hlen. apply Nat.ltb_lt in Hlen. rewrite Hlen. reflexivity.
  - intros Hlen (line & Hin & Hocc).
    apply Nat.ltb_ge in Hlen. rewrite Hlen.
    destruct (PrepStepup.scan_lines (KnownLabels.Lines true_labels) l)
      as [found|] eqn:E.
    + exists found. split; [now apply scan_lines_Some | reflexivity].
    + exfalso. exact (proj1 (scan_lines_None _ _) E line Hin Hocc).
  - intros Hlen Hnone. apply Nat.ltb_ge in Hlen. rewrite Hlen.
    rewrite (proj2 (scan_lines_None _ _) Hnone). reflexivity.
Qed.

Lemma exact_match_first_bucket_witness :
  let run :=
    PrepStepup.classify_feature PyStr.lower_ascii overlapping_labels
                                no_features in
  Types.type <$>
    PrepStepup.output_features (run (unit_labelled (lit "Dike"))) =
    [Types.POINT] ∧
  Types.type <$>
    PrepStepup.output_features (run (unit_labelled (lit "Fault"))) =
    [Types.LINE] ∧
  Types.type <$>
    PrepStepup.output_features (run (unit_labelled (lit "Qal"))) =
    [Types.POLYGON].
Proof.
  intros run. subst run. split; [| split].
  - destruct (exact_match_first_bucket PyStr.lower_ascii overlapping_labels
                no_features (unit_labelled (lit "Dike"))) as (H & _ & _).
    rewrite H; [reflexivity | by_compute].
  - destruct (exact_match_first_bucket PyStr.lower_ascii overlapping_labels
                no_features (unit_labelled (lit "Fault"))) as (_ & H & _).
    rewrite H; [reflexivity | by_compute..].
  - destruct (exact_match_first_bucket PyStr.lower_ascii overlapping_labels
                no_features (unit_labelled (lit "Qal"))) as (_ & _ & H).
    rewrite H; [reflexivity | by_compute..].
Defined.

Lemma fallback_rules_witness :
  let run :=
    PrepStepup.classify_feature PyStr.lower_ascii scenario_labels
                                no_features in
  Types.type <$>
    PrepStepup.output_features (run (unit_labelled (lit "Xyz"))) =
    [Types.POLYGON] ∧
  (∃ line,
     PrepStepup.stat_dict (run (unit_labelled (lit "Normal Fault"))) =
       StatDict.append_Likely_Lines line StatDict.empty ∧
     Types.type <$>
       PrepStepup.output_features
         (run (unit_labelled (lit "Normal Fault"))) =
       [Types.LINE]) ∧
  Types.type <$>
    PrepStepup.output_features (run (unit_labelled (lit "Granite"))) =
    [Types.UNKNOWN].
Proof.
  intros run. subst run. split; [| split].
  - destruct (fallback_rules PyStr.lower_ascii scenario_labels no_features
                (unit_labelled (lit "Xyz"))) as (H & _ & _);
      [by_compute.. |].
    rewrite H; [reflexivity | vm_compute; lia].
  - destruct (fallback_rules PyStr.lower_ascii scenario_labels no_features
                (unit_labelled (lit "Normal Fault"))) as (_ & H & _);
      [by_compute.. |].
    destruct H as (line & _ & H).
    + vm_compute. lia.
    + exists (lit "fault"). split; [by_compute |].
      exists (lit "normal "), []. reflexivity.
    + exists line. rewrite H. split; reflexivity.
  - destruct (fallback_rules PyStr.lower_ascii scenario_labels no_features
                (unit_labelled (lit "Granite"))) as (_ & _ & H);
      [by_compute.. |].
    rewrite H; [reflexivity | vm_compute; lia |].
    intros line Hin. apply contains_false.
    apply list_elem_of_singleton in Hin as ->. reflexivity.
Defined.

(** C6. The preprocessing replaces an empty label by the abbreviation,
    sets the type to Unknown and leaves the other fields alone; the cascade
    runs on the unit so prepared, which is the one appended to the output;
    and the whole step gives the same result whatever type the unit came
    with. *)
Theorem preprocessing_discards_type (lower : str -> str)
    (true_labels : KnownLabels.t)
    (st : PrepStepup.LoopState) (feature : Types.MapUnit)
    (upstream : Types.MapUnitType) :
  PrepStepup.preprocess feature =
    Types.mkMapUnit Types.UNKNOWN
      (if bool_decide (Types.label feature = lit "")
       then Types.abbreviation feature else Types.label feature)
      (Types.abbreviation feature) (Types.label_bbox feature)
      (Types.description feature) (Types.color feature)
      (Types.pattern feature) ∧
  PrepStepup.classify_feature lower true_labels st feature =
  PrepStepup.cascade lower true_labels (PrepStepup.preprocess feature) st ∧
  (∃ ty,
     PrepStepup.output_features
       (PrepStepup.classify_feature lower true_labels st feature) =
     PrepStepup.output_features st ++
     [Types.set_type ty (PrepStepup.preprocess feature)]) ∧
  PrepStepup.classify_feature lower true_labels st
    (Types.set_type upstream feature) =
  PrepStepup.classify_feature lower true_labels st feature.
Proof.
  split; [| split; [| split]].
  - unfold PrepStepup.preprocess. destruct (bool_decide _); reflexivity.
  - reflexivity.
  - apply classify_feature_output.
  - unfold PrepStepup.classify_feature.
    rewrite preprocess_set_type. reflexivity.
Qed.

Lemma classify_fold_output (lower : str -> str)
    (true_labels : KnownLabels.t)
    (feats : list Types.MapUnit) (st : PrepStepup.LoopState) :
  ∃ out,
    PrepStepup.output_features
      (fold_left (PrepStepup.classify_feature lower true_labels) feats st) =
    PrepStepup.output_features st ++ out ∧
    Forall2 classified_from feats out.
Proof.
  revert st. induction feats as [|u feats IH]; intros st; simpl.
  - exists []. split; [now rewrite app_nil_r | constructor].
  - destruct (IH (PrepStepup.classify_feature lower true_labels st u))
      as (out & Hout & Hall).
    destruct (classify_feature_output lower true_labels st u) as (ty & Hu).
    exists (Types.set_type ty (PrepStepup.preprocess u) :: out).
    split.
    + rewrite Hout, Hu, <- app_assoc. reflexivity.
    + constructor; [now exists ty | exact Hall].
Qed.

(** C7. The output legend of a legend is fresh and holds, position by
    position, the features of the input legend, each once, with whatever
    type the cascade gave it; none is left out. *)
Theorem every_feature_retained (lower : str -> str)
    (true_labels : KnownLabels.t)
    (stats : StatDict.t) (legend : Types.Legend) :
  let output_legend :=
    snd (PrepStepup.classify_legend lower true_labels stats legend) in
  Types.provenance output_legend =
    Types.mkProvenance (lit "label_me") (lit "0.0.2") ∧
  Forall2 classified_from (Types.features legend)
          (Types.features output_legend) ∧
  length (Types.features output_legend) = length (Types.features legend).
Proof.
  simpl. split; [reflexivity |].
  destruct (classify_fold_output lower true_labels (Types.features legend)
              (PrepStepup.mkLoop stats [])) as (out & Hout & Hall).
  simpl in Hout. rewrite Hout.
  split; [exact Hall |]. symmetry. exact (Forall2_length _ _ _ Hall).
Qed.

(** C10. A unit whose label and abbreviation are both empty goes through
    the loop body like any other (no step of it can raise on the empty
    string): one unit is appended to the output, it is the unit itself
    with its label still empty, and the type it carries is never Unknown.
    When the empty string is in none of the three buckets, the type it
    carries is Polygon and the empty string is noted as a likely polygon,
    by the rule on labels of fewer than 5 characters. The lower-case form
    of the empty string is the empty string. *)
Theorem empty_label_is_polygon (lower : str -> str)
    (true_labels : KnownLabels.t)
    (st : PrepStepup.LoopState) (feature : Types.MapUnit) :
  lower (lit "") = lit "" →
  Types.label feature = lit "" →
  Types.abbreviation feature = lit "" →
  let st' := PrepStepup.classify_feature lower true_labels st feature in
  ∃ v,
    PrepStepup.output_features st' = PrepStepup.output_features st ++ [v] ∧
    Types.set_type (Types.type feature) v = feature ∧
    Types.type v ≠ Types.UNKNOWN ∧
    ((lit "" ∉ KnownLabels.Points true_labels) →
     (lit "" ∉ KnownLabels.Lines true_labels) →
     (lit "" ∉ KnownLabels.Polygons true_labels) →
     Types.type v = Types.POLYGON ∧
     PrepStepup.stat_dict st' =
       StatDict.append_Likely_Polygons (lit "") (PrepStepup.stat_dict st)).
Proof.
  intros Hlow Hl Ha st'. subst st'.
  assert (Hpre : PrepStepup.preprocess feature =
                 Types.set_type Types.UNKNOWN feature).
  { unfold PrepStepup.preprocess. rewrite Hl, Ha.
    destruct feature as [t l a b d c p]. simpl in *. subst l a.
    reflexivity. }
  assert (Hset : ∀ ty,
            Types.set_type (Types.type feature)
              (Types.set_type ty (Types.set_type Types.UNKNOWN feature)) =
            feature) by (intros ty; destruct feature; reflexivity).
  unfold PrepStepup.classify_feature, PrepStepup.cascade.
  rewrite Hpre. cbn [Types.label Types.set_type]. rewrite Hl, Hlow.
  cbn [PyStr.len length Nat.ltb Nat.leb].
  destruct (bool_decide (lit "" ∈ KnownLabels.Points true_labels)) eqn:EP;
    [eexists; split; [reflexivity |]; split; [apply Hset |];
     split; [discriminate |];
     intros HP; apply bool_decide_eq_true_1 in EP; contradiction |].
  destruct (bool_decide (lit "" ∈ KnownLabels.Lines true_labels)) eqn:EL;
    [eexists; split; [reflexivity |]; split; [apply Hset |];
     split; [discriminate |];
     intros _ HL; apply bool_decide_eq_true_1 in EL; contradiction |].
  destruct (bool_decide (lit "" ∈ KnownLabels.Polygons true_labels)) eqn:EG;
    [eexists; split; [reflexivity |]; split; [apply Hset |];
     split; [discriminate |];
     intros _ _ HG; apply bool_decide_eq_true_1 in EG; contradiction |].
  eexists; split; [reflexivity |]; split; [apply Hset |].
  split; [discriminate |]. intros _ _ _. split; reflexivity.
Qed.

Lemma empty_label_is_polygon_witness :
  let st' :=
    PrepStepup.classify_feature PyStr.lower_ascii scenario_labels
      no_features (unit_labelled (lit "")) in
  Types.type <$> PrepStepup.output_features st' = [Types.POLYGON] ∧
  Types.label <$> PrepStepup.output_features st' = [lit ""] ∧
  StatDict.Likely_Polygons (PrepStepup.stat_dict st') = [lit ""].
Proof.
  intros st'.
  destruct (empty_label_is_polygon PyStr.lower_ascii scenario_labels
              no_features (unit_labelled (lit "")) eq_refl eq_refl eq_refl)
    as (v & Hout & Hv & _ & H).
  destruct H as (Hty & Hstat); [by_compute.. |].
  fold st' in Hout, Hstat. rewrite Hout, Hstat.
  cbn [no_features PrepStepup.output_features app fmap list_fmap].
  rewrite Hty. split; [reflexivity |]. split; [| reflexivity].
  f_equal.
  transitivity
    (Types.label
       (Types.set_type (Types.type (unit_labelled (lit ""))) v));
    [destruct v; reflexivity | rewrite Hv; reflexivity].
Defined.

(** C1, as the code has it. In the end-to-end scenario the five units
    come out Point, Line, Polygon, Polygon, Polygon: [Xyz] and [AB] are
    short labels and are counted as likely polygons, [Normal Fault] is a
    likely line through the keyword [fault]. The labels are ASCII text,
    which [lower] turns into lower case letter by letter. *)
Theorem scenario_types (lower : str -> str) (prov : Types.Provenance)
    (units : list Types.MapUnit) :
  lowers_ascii lower →
  Types.label <$> units =
    [lit "Spring"; lit "Normal Fault"; lit "Qal"; lit "Xyz"; lit "AB"] →
  let result :=
    PrepStepup.classify_legend lower scenario_labels StatDict.empty
                               (Types.mkLegend prov units) in
  Types.type <$> Types.features (snd result) =
    [Types.POINT; Types.LINE; Types.POLYGON; Types.POLYGON; Types.POLYGON] ∧
  fst result =
    StatDict.mk [lit "spring"] [] [lit "fault"] [lit "qal"]
                [lit "xyz"; lit "ab"] [].
Proof.
  intros Hlower H.
  do 5 (destruct units as [|[] units]; [discriminate H |]).
  destruct units; [| discriminate H].
  simpl in H. injection H as -> -> -> -> ->.
  intros result. subst result.
  rewrite (classify_legend_ext lower scenario_labels PyStr.lower_ascii).
  - split; vm_compute; reflexivity.
  - repeat constructor; apply Hlower; reflexivity.
Qed.

Lemma scenario_types_witness :
  Types.type <$>
    Types.features
      (snd (PrepStepup.classify_legend PyStr.lower_ascii scenario_labels
              StatDict.empty scenario_legend)) =
  [Types.POINT; Types.LINE; Types.POLYGON; Types.POLYGON; Types.POLYGON].
Proof.
  exact (proj1 (scenario_types PyStr.lower_ascii
                  (Types.mkProvenance (lit "labelme") (lit "0.0.1"))
                  (map unit_labelled
                     [lit "Spring"; lit "Normal Fault"; lit "Qal";
                      lit "Xyz"; lit "AB"])
                  lower_ascii_lowers_ascii eq_refl)).
Defined.

(** C1, as the specification lists it: the fourth unit, [Xyz], is not
    Unknown, whatever [lower] does outside ASCII text. *)
Lemma scenario_xyz_not_unknown :
  ¬ ∃ lower,
      lowers_ascii lower ∧
      Types.type <$>
        Types.features
          (snd (PrepStepup.classify_legend lower scenario_labels
                  StatDict.empty scenario_legend)) =
      [Types.POINT; Types.LINE; Types.POLYGON; Types.UNKNOWN;
       Types.POLYGON].
Proof.
  intros (lower & Hlower & H).
  rewrite (classify_legend_ext lower scenario_labels PyStr.lower_ascii)
    in H.
  - vm_compute in H. discriminate H.
  - repeat constructor; apply Hlower; reflexivity.
Qed.

(** ** The known-label builder *)

Section Buckets.
Import Types GenKnownLabels.

Lemma append_lines_bucket (ty : MapUnitType) (lines : list str)
    (d : KnownLabels.t) (s : str) :
  s ∈ bucket ty (fold_left (fun d line => append_Lines line d) lines d) ↔
  s ∈ bucket ty d ∨ (ty = LINE ∧ s ∈ lines).
Proof.
  revert d. induction lines as [|l lines IH]; intros d; simpl.
  - split; [now left | intros [H | [_ H]]; [exact H | inversion H]].
  - rewrite IH. destruct ty; simpl;
      rewrite ?elem_of_app, ?list_elem_of_singleton, ?elem_of_cons;
      intuition congruence.
Qed.

Lemma unique_elem (l : list str) (s : str) : s ∈ unique l ↔ s ∈ l.
Proof. unfold unique. rewrite elem_of_elements, elem_of_list_to_set. tauto. Qed.

Lemma unique_NoDup (l : list str) : NoDup (unique l).
Proof. unfold unique. apply NoDup_elements. Qed.

End Buckets.

Section Builder.
Import Types GenKnownLabels.

Variable lower : str -> str.

Lemma add_feature_bucket (ty : MapUnitType) (d : KnownLabels.t)
    (feature : MapUnit) (s : str) :
  s ∈ bucket ty (add_feature lower d feature) ↔
  s ∈ bucket ty d ∨ (type feature = ty ∧ lower (label feature) = s).
Proof.
  unfold add_feature.
  destruct ty, (type feature); simpl;
    rewrite ?elem_of_app, ?list_elem_of_singleton;
    intuition congruence.
Qed.

Lemma add_features_bucket (ty : MapUnitType) (feats : list MapUnit)
    (d : KnownLabels.t) (s : str) :
  s ∈ bucket ty (fold_left (add_feature lower) feats d) ↔
  s ∈ bucket ty d ∨
  ∃ feature, feature ∈ feats ∧ type feature = ty ∧
             lower (label feature) = s.
Proof.
  revert d. induction feats as [|f feats IH]; intros d; simpl.
  - split; [now left | intros [H | (f & Hf & _)]; [exact H |]].
    inversion Hf.
  - rewrite IH, add_feature_bucket. split.
    + intros [[H | H] | (g & Hg & H)].
      * now left.
      * right. exists f. split; [left | exact H].
      * right. exists g. split; [now right | exact H].
    + intros [H | (g & Hg & H)]; [now left; left |].
      apply elem_of_cons in Hg as [-> | Hg].
      * left. now right.
      * right. exists g. split; assumption.
Qed.

Lemma scan_legends_bucket (ty : MapUnitType) (true_legends : list Legend)
    (d : KnownLabels.t) (s : str) :
  s ∈ bucket ty (scan_legends lower true_legends d) ↔
  s ∈ bucket ty d ∨ observed lower ty true_legends s.
Proof.
  unfold scan_legends, observed. revert d.
  induction true_legends as [|lg lgs IH]; intros d; simpl.
  - split; [now left | intros [H | (lg & f & Hlg & _)]; [exact H |]].
    inversion Hlg.
  - rewrite IH, add_features_bucket. split.
    + intros [[H | (f & Hf & H)] | (lg' & f & Hlg & H)].
      * now left.
      * right. exists lg, f. split; [left | split; assumption].
      * right. exists lg', f. split; [now right | exact H].
    + intros [H | (lg' & f & Hlg & Hf & H)]; [now left; left |].
      apply elem_of_cons in Hlg as [-> | Hlg].
      * left. right. exists f. split; assumption.
      * right. exists lg', f. split; [exact Hlg | split; assumption].
Qed.

Lemma main_bucket (ty : MapUnitType) (true_legends : list Legend) :
  bucket ty (main lower true_legends) =
  unique (bucket ty
    (fold_left (fun d line => append_Lines line d) known_lines
       (scan_legends lower true_legends (KnownLabels.mk [] [] [] [])))).
Proof. destruct ty; reflexivity. Qed.

End Builder.

(** C8. A string is in a bucket of the built dictionary exactly when it is
    the lower-cased label of a feature of the bucket's type in one of the
    input legends or, for the Lines bucket, one of the five manual
    keywords; the lower-cased label of every feature is in the bucket of
    the feature's type; no bucket holds a string twice. The entry of a
    feature is what [lower] returns for its label, with nothing stripped
    or otherwise changed, whatever [lower] is. *)
Theorem known_labels_built (lower : str -> str)
    (true_legends : list Types.Legend) :
  let d := GenKnownLabels.main lower true_legends in
  (∀ ty s,
     s ∈ bucket ty d ↔
     observed lower ty true_legends s ∨
     (ty = Types.LINE ∧
      s ∈ [lit "monocline"; lit "syncline"; lit "anticline";
           lit "antiform"; lit "synform"])) ∧
  (∀ legend feature,
     legend ∈ true_legends → feature ∈ Types.features legend →
     lower (Types.label feature) ∈ bucket (Types.type feature) d) ∧
  (∀ ty, NoDup (bucket ty d)).
Proof.
  intros d. subst d.
  assert (Hmem : ∀ ty s,
            s ∈ bucket ty (GenKnownLabels.main lower true_legends) ↔
            observed lower ty true_legends s ∨
            (ty = Types.LINE ∧ s ∈ GenKnownLabels.known_lines)).
  { intros ty s.
    rewrite main_bucket, unique_elem, append_lines_bucket,
      scan_legends_bucket.
    split.
    - intros [[H | H] | H]; [| now left | now right].
      destruct ty; inversion H.
    - intros [H | H]; [left; now right | now right]. }
  split; [exact Hmem | split].
  - intros legend feature Hl Hf. apply Hmem. left.
    exists legend, feature. repeat split; assumption.
  - intros ty. rewrite main_bucket. apply unique_NoDup.
Qed.

Lemma known_labels_built_witness :
  let d := GenKnownLabels.main PyStr.lower_ascii padded_legends in
  lit " normal fault " ∈ bucket Types.LINE d ∧
  lit "normal fault" ∈ bucket Types.LINE d ∧
  lit "synform" ∈ bucket Types.LINE d ∧
  (lit " Normal Fault " ∉ bucket Types.LINE d) ∧
  (lit "NORMAL FAULT" ∉ bucket Types.LINE d) ∧
  length (bucket Types.LINE d) = 7 ∧
  bucket Types.POINT d = [lit " normal fault "] ∧
  bucket Types.POLYGON d = [].
Proof.
  intros d.
  destruct (known_labels_built PyStr.lower_ascii padded_legends)
    as (Hmem & Hin & _).
  fold d in Hmem, Hin.
  split; [| split; [| split]].
  - apply (Hin (Types.mkLegend (Types.mkProvenance (lit "truth") (lit "1"))
                  [Types.set_type Types.LINE
                     (unit_labelled (lit " Normal Fault "));
                   Types.set_type Types.LINE
                     (unit_labelled (lit "NORMAL FAULT"))])
               (Types.set_type Types.LINE
                  (unit_labelled (lit " Normal Fault ")))).
    + left.
    + left.
  - apply (Hin (Types.mkLegend (Types.mkProvenance (lit "truth") (lit "1"))
                  [Types.set_type Types.LINE
                     (unit_labelled (lit " Normal Fault "));
                   Types.set_type Types.LINE
                     (unit_labelled (lit "NORMAL FAULT"))])
               (Types.set_type Types.LINE
                  (unit_labelled (lit "NORMAL FAULT")))).
    + left.
    + right. left.
  - apply Hmem. right. split; [reflexivity | by_compute].
  - subst d. split; [by_compute |]. split; [by_compute |].
    split; [| split]; vm_compute; reflexivity.
Defined.

(** ** The document written for the annotation tool *)

Section SaveDocument.
Import Types PrepStepup.

Variable to_str : MapUnitType -> str.

Lemma save_unit_spec (st : SaveState) (u : MapUnit) :
  save_unit to_str st u =
  mkSave (shapes_acc st ++ shapes_of to_str u)
         (saved_features st ++
          [set_label (PyStr.replace (chr " ") (chr "_") (label u)) u]).
Proof.
  unfold save_unit, shapes_of, shape_label, rectangle.
  cbn [label type description label_bbox set_label].
  destruct (type u), (description u); simpl;
    rewrite <- ?(app_assoc (shapes_acc st)); reflexivity.
Qed.

Lemma save_fold_spec (feats : list MapUnit) (st : SaveState) :
  fold_left (save_unit to_str) feats st =
  mkSave (shapes_acc st ++ concat (map (shapes_of to_str) feats))
         (saved_features st ++
          map (fun u =>
                 set_label (PyStr.replace (chr " ") (chr "_") (label u)) u)
              feats).
Proof.
  revert st. induction feats as [|u feats IH]; intros st.
  - cbn [fold_left map concat]. rewrite !app_nil_r.
    destruct st; reflexivity.
  - cbn [fold_left map concat]. rewrite IH, save_unit_spec.
    cbn [shapes_acc saved_features].
    rewrite <- (app_assoc (shapes_acc st)),
      <- (app_assoc (saved_features st)). reflexivity.
Qed.

End SaveDocument.

Lemma replace_underscored (s : str) :
  underscored s (PyStr.replace (chr " ") (chr "_") s).
Proof.
  unfold PyStr.replace. split.
  - apply length_fmap.
  - intros i. rewrite list_lookup_fmap.
    destruct (s !! i) as [c|]; [| reflexivity].
    cbn [fmap option_fmap option_map].
    destruct (bool_decide (c = chr " ")); reflexivity.
Qed.

(** C9. The document saved for a legend has version 5.0.1 and source
    StepUp; its shapes are, unit after unit, the rectangle of the label box
    labelled with the underscored label and the type (no type when it is
    Unknown), then, when the unit has a description region, the rectangle
    of that region labelled like the first with [_desc] appended. The
    labels of the legend are left with every space replaced by an
    underscore. *)
Theorem saved_document (to_str : Types.MapUnitType -> str)
    (legend : Types.Legend) :
  PrepStepup.saveSteupUpJson to_str legend =
  (PrepStepup.StepUpJson.mk (lit "5.0.1") (lit "StepUp")
     (concat (map (shapes_of to_str) (Types.features legend))),
   Types.mkLegend (Types.provenance legend)
     (map (fun u =>
             Types.set_label
               (PyStr.replace (chr " ") (chr "_") (Types.label u)) u)
          (Types.features legend))) ∧
  (∀ u, shapes_of to_str u =
        rectangle (shape_label to_str u) (Types.label_bbox u) ::
        match Types.description u with
        | Some region =>
            [rectangle (shape_label to_str u ++ lit "_desc") region]
        | None => []
        end) ∧
  (∀ u, shape_label to_str u =
        if bool_decide (Types.type u = Types.UNKNOWN)
        then PyStr.replace (chr " ") (chr "_") (Types.label u)
        else PyStr.replace (chr " ") (chr "_") (Types.label u) ++
             lit "_" ++ to_str (Types.type u)) ∧
  (∀ s, underscored s (PyStr.replace (chr " ") (chr "_") s)).
Proof.
  split; [| split; [| split]].
  - unfold PrepStepup.saveSteupUpJson. rewrite save_fold_spec. reflexivity.
  - reflexivity.
  - intros u. unfold shape_label. destruct (Types.type u); reflexivity.
  - apply replace_underscored.
Qed.

(** ** The catalog synchroniser *)

Section Synchroniser.
Import Types UpdateStepup.

Variable from_str : str -> MapUnitType.
Variable cdr : Remote.

Lemma paired_write_both (d : Disk) (ngmdb_id : str) (lgd : Legend)
    (img : str) :
  paired d →
  paired (mkDisk (<[ngmdb_id := lgd]> (legends d))
                 (<[ngmdb_id := img]> (images d))).
Proof.
  intros Hd i. simpl. destruct (decide (ngmdb_id = i)) as [-> | Hne].
  - rewrite !lookup_insert_eq. split; eauto.
  - rewrite !lookup_insert_ne by exact Hne. apply Hd.
Qed.

(** A row that both exists-checks let through is skipped untouched. *)
Lemma process_row_skip (st : SyncState) (row : Row) :
  legend_exists (proddesc row) st = true →
  image_exists (proddesc row) st = true →
  process_row from_str cdr st row = Continue st.
Proof.
  intros HL HI. unfold process_row. rewrite HL, HI. simpl.
  destruct (bool_decide _); reflexivity.
Qed.

(** A row that does not end in an exception keeps the pairing. *)
Lemma process_row_paired (st st' : SyncState) (row : Row) :
  paired (disk st) →
  process_row from_str cdr st row = Go st' ∨
  process_row from_str cdr st row = Continue st' →
  paired (disk st').
Proof.
  intros Hp. unfold process_row.
  destruct (bool_decide (label_completed row ≠ Some (lit "1")));
    [intros [[=] | [= <-]]; exact Hp |].
  destruct (legend_exists (proddesc row) st) eqn:HL.
  - (* the legend is there, so the image is, and the row is skipped *)
    assert (HI : image_exists (proddesc row) st = true).
    { unfold legend_exists in HL. unfold image_exists.
      apply bool_decide_eq_true_1 in HL. apply bool_decide_eq_true_2.
      now apply Hp. }
    rewrite HI. simpl. intros [[=] | [= <-]]; exact Hp.
  - simpl.
    destruct (cog_url_answer cdr (proddesc row)) as [cog_url|];
      [| intros [[=] | [= <-]]; exact Hp].
    unfold fetch_legend. simpl.
    assert (HL1 : legend_exists (proddesc row)
                    (log_call (LookupCog (proddesc row)) st) = false)
      by exact HL.
    rewrite HL1. simpl.
    destruct (legend_items_answer cdr (cog_id_of cog_url)) as [items|];
      [| intros [[=] | [=]]].
    destruct (bool_decide (length items = 0));
      [intros [[=] | [= <-]]; exact Hp |].
    unfold fetch_image.
    assert (HI : image_exists (proddesc row)
                   (write_legend (proddesc row) (saveStepUpJson from_str items)
                      (log_call (LegendItems (cog_id_of cog_url))
                         (log_call (LookupCog (proddesc row)) st))) = false).
    { unfold image_exists, legend_exists in *. simpl.
      apply bool_decide_eq_false_1 in HL. apply bool_decide_eq_false_2.
      intros H. apply HL. now apply Hp. }
    rewrite HI. simpl.
    destruct (download_ngmdb_tif cdr cog_url) as [[img|]|];
      [| intros [[=] | [=]] | intros [[=] | [=]]].
    intros [[= <-] | [=]]. simpl. now apply paired_write_both.
Qed.

Lemma process_rows_paired (rows : list Row) (st st' : SyncState) :
  paired (disk st) →
  process_rows from_str cdr st rows = Go st' →
  paired (disk st').
Proof.
  revert st. induction rows as [|row rows IH]; intros st Hp; simpl.
  - intros [= <-]. exact Hp.
  - destruct (process_row from_str cdr st row) as [st1|st1|st1] eqn:E;
      [| | discriminate].
    + apply IH. eapply process_row_paired; [exact Hp | left; exact E].
    + apply IH. eapply process_row_paired; [exact Hp | right; exact E].
Qed.

Lemma process_rows_not_continue (rows : list Row) (st st' : SyncState) :
  process_rows from_str cdr st rows ≠ Continue st'.
Proof.
  revert st. induction rows as [|row rows IH]; intros st; simpl;
    [discriminate |].
  destruct (process_row from_str cdr st row); [apply IH | apply IH |].
  discriminate.
Qed.

Lemma main_paired (inventory : list Row) (data : Disk) (st : SyncState) :
  paired data →
  main from_str cdr inventory data = Go st →
  paired (disk st).
Proof.
  intros Hp. unfold main.
  destruct (register_answer cdr); [| discriminate].
  destruct (process_rows from_str cdr _ _) as [st1|st1|st1] eqn:E;
    [| exfalso; exact (process_rows_not_continue _ _ _ E) | discriminate].
  destruct (unregister_answer cdr); [| discriminate].
  intros [= <-]. simpl.
  eapply process_rows_paired; [| exact E]. exact Hp.
Qed.

End Synchroniser.

(** C5, as the code has it. When every identifier starts with both files
    or neither and the run ends without an exception, every identifier
    still has both files or neither; and a row whose two files exist is
    skipped with the state, the list of remote calls included, left as it
    was. *)
Theorem pairs_kept_by_finished_run (from_str : str -> Types.MapUnitType)
    (cdr : UpdateStepup.Remote) (inventory : list UpdateStepup.Row)
    (data : UpdateStepup.Disk) (st st0 : UpdateStepup.SyncState)
    (row : UpdateStepup.Row) :
  paired data →
  UpdateStepup.main from_str cdr inventory data = UpdateStepup.Go st →
  paired (UpdateStepup.disk st) ∧
  (UpdateStepup.legend_exists (UpdateStepup.proddesc row) st0 = true →
   UpdateStepup.image_exists (UpdateStepup.proddesc row) st0 = true →
   UpdateStepup.process_row from_str cdr st0 row =
   UpdateStepup.Continue st0).
Proof.
  intros Hp Hrun. split.
  - exact (main_paired from_str cdr inventory data st Hp Hrun).
  - apply process_row_skip.
Qed.

Lemma paired_empty_disk : paired empty_disk.
Proof.
  intros i. unfold empty_disk. simpl.
  split; intros [x H]; rewrite lookup_empty in H; discriminate H.
Qed.

Lemma pairs_kept_by_finished_run_witness :
  let st :=
    state_of (UpdateStepup.main sample_from_str catalog_answers two_maps
                                empty_disk) in
  paired (UpdateStepup.disk st) ∧
  UpdateStepup.process_row sample_from_str catalog_answers st
    (UpdateStepup.mkRow (lit "1001") (Some (lit "1"))) = UpdateStepup.Continue st.
Proof.
  intros st.
  destruct (pairs_kept_by_finished_run sample_from_str catalog_answers
              two_maps empty_disk st st
              (UpdateStepup.mkRow (lit "1001") (Some (lit "1"))))
    as [H1 H2].
  - exact paired_empty_disk.
  - vm_compute. reflexivity.
  - split; [exact H1 |]. apply H2; vm_compute; reflexivity.
Defined.

(** C5, as the specification states it: from an empty directory, a map
    whose legend is saved and whose image cannot be fetched is left with
    the legend alone. *)
Lemma legend_left_without_image :
  let st :=
    state_of (UpdateStepup.main sample_from_str catalog_image_unreachable
                                two_maps empty_disk) in
  paired empty_disk ∧
  is_Some (UpdateStepup.legends (UpdateStepup.disk st) !! (lit "1001")) ∧
  UpdateStepup.images (UpdateStepup.disk st) !! (lit "1001") = None ∧
  ¬ paired (UpdateStepup.disk st).
Proof.
  intros st.
  assert (HL : is_Some (UpdateStepup.legends (UpdateStepup.disk st)
                          !! (lit "1001"))) by by_compute.
  assert (HI : UpdateStepup.images (UpdateStepup.disk st) !! (lit "1001") = None)
    by (vm_compute; reflexivity).
  split; [exact paired_empty_disk |]. split; [exact HL |].
  split; [exact HI |].
  intros Hp. apply Hp in HL. rewrite HI in HL. destruct HL; discriminate.
Qed.

(** C4, on the code. A lookup that fails is noted and the run goes on,
    but a legend-item call that raises, an image that is refused and an
    image request that raises each end the run on the first map: its
    identifier is not in the bad identifiers, the second map is never
    looked up, [unregister] is never called. The refused image also
    leaves an empty image file behind. *)
Theorem remote_failure_ends_run :
  let run cdr := UpdateStepup.main sample_from_str cdr two_maps empty_disk in
  (∃ st, run catalog_lookup_fails = UpdateStepup.Go st ∧
         UpdateStepup.bad_ids st = [lit "1001"; lit "1002"]) ∧
  (∃ st, run catalog_legend_fails = UpdateStepup.Raised st ∧
         UpdateStepup.bad_ids st = [] ∧
         UpdateStepup.calls st =
           [UpdateStepup.Register; UpdateStepup.LookupCog (lit "1001");
            UpdateStepup.LegendItems (lit "1001")]) ∧
  (∃ st, run catalog_image_refused = UpdateStepup.Raised st ∧
         UpdateStepup.bad_ids st = [] ∧
         UpdateStepup.calls st =
           [UpdateStepup.Register; UpdateStepup.LookupCog (lit "1001");
            UpdateStepup.LegendItems (lit "1001");
            UpdateStepup.ImageGet (lit "https://cdr.example/cogs/1001.cog.tif")] ∧
         UpdateStepup.images (UpdateStepup.disk st) !! lit "1001" = Some []) ∧
  (∃ st, run catalog_image_unreachable = UpdateStepup.Raised st ∧
         UpdateStepup.bad_ids st = [] ∧
         UpdateStepup.calls st =
           [UpdateStepup.Register; UpdateStepup.LookupCog (lit "1001");
            UpdateStepup.LegendItems (lit "1001");
            UpdateStepup.ImageGet (lit "https://cdr.example/cogs/1001.cog.tif")]).
Proof.
  intros run. subst run. simpl.
  split; [| split; [| split]]; eexists; (split; [vm_compute; reflexivity |]);
    vm_compute; repeat split.
Qed.

(** * Further properties of the preparer *)

Section Preparer.
Import Types PrepStepup.

Variable lower : str -> str.
Variable true_labels : KnownLabels.t.

(** The cascade, arm by arm. [Ltac] rather than a lemma: the arms differ
    in the statistic they note. *)
Ltac cascade_arms tac :=
  unfold classify_feature, cascade;
  repeat (destruct (bool_decide (_ ∈ _)); [tac |]);
  match goal with
  | |- context [Nat.ltb ?a ?b] => destruct (Nat.ltb a b)
  end; [tac |];
  match goal with
  | |- context [scan_lines ?a ?b] => destruct (scan_lines a b)
  end; tac.

Lemma classify_feature_from (st : LoopState) (u : MapUnit) :
  output_features (classify_feature lower true_labels st u) =
  output_features st ++ classified lower true_labels u.
Proof. unfold classified. cascade_arms ltac:(reflexivity). Qed.

Lemma classify_fold_from (feats : list MapUnit) (st : LoopState) :
  output_features (fold_left (classify_feature lower true_labels) feats st) =
  output_features st ++ concat (map (classified lower true_labels) feats).
Proof.
  revert st. induction feats as [|u feats IH]; intros st; simpl.
  - now rewrite app_nil_r.
  - rewrite IH, classify_feature_from, <- app_assoc. reflexivity.
Qed.

Lemma classify_legend_features (stats : StatDict.t) (legend : Legend) :
  features (snd (classify_legend lower true_labels stats legend)) =
  concat (map (classified lower true_labels) (features legend)).
Proof. simpl. rewrite classify_fold_from. reflexivity. Qed.

Lemma classify_feature_total (st : LoopState) (u : MapUnit) :
  stat_total (stat_dict (classify_feature lower true_labels st u)) =
  S (stat_total (stat_dict st)).
Proof.
  unfold stat_total.
  cascade_arms ltac:(simpl; rewrite length_app; simpl; lia).
Qed.

Lemma classify_fold_total (feats : list MapUnit) (st : LoopState) :
  stat_total (stat_dict (fold_left (classify_feature lower true_labels) feats st))
  = stat_total (stat_dict st) + length feats.
Proof.
  revert st. induction feats as [|u feats IH]; intros st; simpl; [lia |].
  rewrite IH, classify_feature_total. lia.
Qed.

Lemma classify_all_total (stepup_legends : list (str * Legend))
    (stats : StatDict.t) :
  stat_total (fst (classify_all lower true_labels stats stepup_legends)) =
  stat_total stats +
  length (concat (map (fun e => features (snd e)) stepup_legends)).
Proof.
  revert stats.
  induction stepup_legends as [|[mapname legend] rest IH]; intros stats.
  - simpl. lia.
  - cbn [classify_all].
    destruct (classify_legend lower true_labels stats legend)
      as [stats1 out] eqn:E1.
    destruct (classify_all lower true_labels stats1 rest) as [stats2 od] eqn:E2.
    simpl. rewrite length_app.
    specialize (IH stats1). rewrite E2 in IH. simpl in IH. rewrite IH.
    assert (stats1 = fst (classify_legend lower true_labels stats legend))
      as -> by now rewrite E1.
    simpl. rewrite classify_fold_total. simpl. lia.
Qed.

Section Sound.

Variable input_label : str -> Prop.




End Sound.

Lemma classify_all_documents (stepup_legends : list (str * Legend))
    (stats : StatDict.t) :
  snd (classify_all lower true_labels stats stepup_legends) =
  map (fun e =>
         (fst e,
          snd (classify_legend lower true_labels StatDict.empty (snd e))))
      stepup_legends.
Proof.
  revert stats.
  induction stepup_legends as [|[mapname legend] rest IH]; intros stats.
  - reflexivity.
  - cbn [classify_all].
    destruct (classify_legend lower true_labels stats legend)
      as [stats1 out] eqn:E1.
    destruct (classify_all lower true_labels stats1 rest) as [stats2 od] eqn:E2.
    simpl. specialize (IH stats1). rewrite E2 in IH. simpl in IH.
    rewrite IH. f_equal. f_equal.
    assert (out = snd (classify_legend lower true_labels stats legend))
      as -> by now rewrite E1.
    simpl. rewrite !classify_fold_from. reflexivity.
Qed.

End Preparer.

Section PreparerRun.
Import Types PrepStepup.

Variable to_str : MapUnitType -> str.
Variable lower : str -> str.
Variable true_labels : KnownLabels.t.

Lemma main_fst (stepup_legends : list (str * Legend)) :
  fst (main lower to_str true_labels stepup_legends) =
  fst (classify_all lower true_labels StatDict.empty stepup_legends).
Proof.
  unfold main. destruct (classify_all _ _ _). reflexivity.
Qed.

Lemma main_snd (stepup_legends : list (str * Legend)) :
  snd (main lower to_str true_labels stepup_legends) =
  map (fun entry : str * Legend =>
         (fst entry ++ lit ".json", fst (saveSteupUpJson to_str (snd entry))))
      (snd (classify_all lower true_labels StatDict.empty stepup_legends)).
Proof.
  unfold main. destruct (classify_all _ _ _). reflexivity.
Qed.

Lemma classified_singleton (u : MapUnit) :
  ∃ ty, classified lower true_labels u = [set_type ty (preprocess u)].
Proof.
  destruct (classify_feature_output lower true_labels (mkLoop StatDict.empty []) u)
    as (ty & H).
  exists ty. exact H.
Qed.

Lemma preprocess_idempotent (u : MapUnit) :
  preprocess (preprocess u) = preprocess u.
Proof.
  unfold preprocess. destruct u as [t l a b d c p]. simpl.
  destruct (bool_decide (l = lit "")) eqn:E; simpl.
  - destruct (bool_decide (a = lit "")) eqn:Ea; [| reflexivity].
    apply bool_decide_eq_true_1 in Ea. subst a. reflexivity.
  - rewrite E. reflexivity.
Qed.

Lemma classified_again (u v : MapUnit) :
  v ∈ classified lower true_labels u → classified lower true_labels v = [v].
Proof.
  destruct (classified_singleton u) as (ty & Hu). rewrite Hu.
  intros Hv. apply list_elem_of_singleton in Hv. subst v.
  transitivity (classified lower true_labels u); [| exact Hu].
  unfold classified, classify_feature.
  rewrite preprocess_set_type, preprocess_idempotent. reflexivity.
Qed.

Lemma classified_concat_again (feats : list MapUnit) :
  concat (map (classified lower true_labels)
            (concat (map (classified lower true_labels) feats))) =
  concat (map (classified lower true_labels) feats).
Proof.
  induction feats as [|u feats IH]; [reflexivity |].
  simpl. rewrite map_app, concat_app, IH. f_equal.
  destruct (classified_singleton u) as (ty & Hu).
  assert (Hv : set_type ty (preprocess u) ∈ classified lower true_labels u)
    by (rewrite Hu; left).
  apply classified_again in Hv. rewrite Hu. simpl. rewrite Hv. reflexivity.
Qed.

End PreparerRun.

(** X1. Every feature is counted once in the statistics: after [main],
    the six lists hold together as many entries as the loaded legends have
    features. *)
Theorem statistics_count_features (lower : str -> str)
    (to_str : Types.MapUnitType -> str) (true_labels : KnownLabels.t)
    (stepup_legends : list (str * Types.Legend)) :
  stat_total (fst (PrepStepup.main lower to_str true_labels stepup_legends)) =
  length (concat (map (fun e => Types.features (snd e)) stepup_legends)).
Proof.
  rewrite main_fst, classify_all_total. reflexivity.
Qed.


(** X3. [main] writes one document per loaded legend, in the order of the
    legends, under the name of the map followed by [.json]; the document of
    a map is the saved classification of its own legend and depends on
    no other map. *)
Theorem documents_per_map (lower : str -> str)
    (to_str : Types.MapUnitType -> str) (true_labels : KnownLabels.t)
    (stepup_legends : list (str * Types.Legend)) :
  snd (PrepStepup.main lower to_str true_labels stepup_legends) =
  map (fun e =>
         (fst e ++ lit ".json",
          fst (PrepStepup.saveSteupUpJson to_str
                 (snd (PrepStepup.classify_legend lower true_labels
                         StatDict.empty (snd e))))))
      stepup_legends.
Proof.
  rewrite main_snd, classify_all_documents, map_map. reflexivity.
Qed.

(** X4. A unit comes out Unknown exactly when its lower-cased label is in
    none of the three buckets, its label has at least 5 characters and no
    entry of the Lines bucket occurs in the lower-cased label. *)
Theorem unknown_exactly_when (lower : str -> str)
    (true_labels : KnownLabels.t)
    (u : Types.MapUnit) :
  let v := PrepStepup.preprocess u in
  let l := lower (Types.label v) in
  Types.type <$> classified lower true_labels u = [Types.UNKNOWN] ↔
  (l ∉ KnownLabels.Points true_labels) ∧
  (l ∉ KnownLabels.Lines true_labels) ∧
  (l ∉ KnownLabels.Polygons true_labels) ∧
  5 ≤ PyStr.len (Types.label v) ∧
  (∀ line, line ∈ KnownLabels.Lines true_labels → ¬ occurs_in line l).
Proof.
  intros v l. subst l. subst v.
  unfold classified, PrepStepup.classify_feature, PrepStepup.cascade.
  generalize (PrepStepup.preprocess u). intros v.
  set (l := lower (Types.label v)).
  destruct (bool_decide (l ∈ KnownLabels.Points true_labels)) eqn:EP.
  { apply bool_decide_eq_true_1 in EP. simpl.
    split; [discriminate | intros (H & _); contradiction]. }
  destruct (bool_decide (l ∈ KnownLabels.Lines true_labels)) eqn:EL.
  { apply bool_decide_eq_true_1 in EL. simpl.
    split; [discriminate | intros (_ & H & _); contradiction]. }
  destruct (bool_decide (l ∈ KnownLabels.Polygons true_labels)) eqn:EG.
  { apply bool_decide_eq_true_1 in EG. simpl.
    split; [discriminate | intros (_ & _ & H & _); contradiction]. }
  apply bool_decide_eq_false_1 in EP, EL, EG.
  destruct (PyStr.len (Types.label v) <? 5)%nat eqn:Elen.
  { apply Nat.ltb_lt in Elen. simpl.
    split; [discriminate | intros (_ & _ & _ & H & _)].
    unfold PyStr.len in *. lia. }
  apply Nat.ltb_ge in Elen.
  destruct (PrepStepup.scan_lines (KnownLabels.Lines true_labels) l)
    as [line|] eqn:Escan; simpl.
  - split; [discriminate |]. intros (_ & _ & _ & _ & H). exfalso.
    apply scan_lines_Some in Escan as (skipped & rest & Hl & Hocc & _).
    apply (H line); [| exact Hocc].
    rewrite Hl. apply elem_of_app. right. left.
  - split; [| reflexivity]. intros _.
    repeat split; try assumption. now apply scan_lines_None.
Qed.

(** X5. The classification sees the three buckets as sets: two
    dictionaries that hold the same strings, in any order and with any
    repetition, give every unit the same result. *)
Theorem bucket_order_irrelevant (lower : str -> str)
    (a b : KnownLabels.t) (u : Types.MapUnit) :
  same_known a b → classified lower a u = classified lower b u.
Proof.
  intros (HP & HL & HG).
  unfold classified, PrepStepup.classify_feature, PrepStepup.cascade.
  generalize (PrepStepup.preprocess u). intros v.
  rewrite (bool_decide_ext _ _ (HP (lower (Types.label v)))).
  rewrite (bool_decide_ext _ _ (HL (lower (Types.label v)))).
  rewrite (bool_decide_ext _ _ (HG (lower (Types.label v)))).
  repeat (destruct (bool_decide (_ ∈ _)); [reflexivity |]).
  destruct (_ <? _)%nat; [reflexivity |].
  destruct (PrepStepup.scan_lines (KnownLabels.Lines a) _) as [la|] eqn:Ea;
    destruct (PrepStepup.scan_lines (KnownLabels.Lines b) _) as [lb|] eqn:Eb;
    try reflexivity; exfalso.
  - apply scan_lines_Some in Ea as (skipped & rest & Hl & Hocc & _).
    apply (proj1 (scan_lines_None _ _) Eb la); [| exact Hocc].
    apply HL. rewrite Hl. apply elem_of_app. right. left.
  - apply scan_lines_Some in Eb as (skipped & rest & Hl & Hocc & _).
    apply (proj1 (scan_lines_None _ _) Ea lb); [| exact Hocc].
    apply HL. rewrite Hl. apply elem_of_app. right. left.
Qed.


(** X7. Classifying a legend that was already classified with the same
    dictionary gives that legend back: the labels chosen by the
    abbreviation fallback and the types are stable. *)
Theorem classification_stable (lower : str -> str)
    (true_labels : KnownLabels.t)
    (stats1 stats2 : StatDict.t) (legend : Types.Legend) :
  let output_legend :=
    snd (PrepStepup.classify_legend lower true_labels stats1 legend) in
  snd (PrepStepup.classify_legend lower true_labels stats2 output_legend) =
  output_legend.
Proof.
  intros out.
  assert (Hf : Types.features
                 (snd (PrepStepup.classify_legend lower true_labels stats2 out)) =
               Types.features out).
  { subst out. rewrite !classify_legend_features.
    apply classified_concat_again. }
  revert Hf. subst out. simpl. intros ->. reflexivity.
Qed.

Lemma bucket_order_irrelevant_witness :
  classified PyStr.lower_ascii overlapping_labels (unit_labelled (lit "Thrust Fault")) =
  classified PyStr.lower_ascii shuffled_labels (unit_labelled (lit "Thrust Fault")).
Proof.
  apply (bucket_order_irrelevant PyStr.lower_ascii overlapping_labels shuffled_labels
           (unit_labelled (lit "Thrust Fault"))).
  unfold same_known. simpl.
  split; [| split]; intros s; rewrite !elem_of_cons, !elem_of_nil; tauto.
Defined.


(** * Further properties of the saved document *)

Lemma replace_idempotent (s : str) :
  PyStr.replace (chr " ") (chr "_") (PyStr.replace (chr " ") (chr "_") s) =
  PyStr.replace (chr " ") (chr "_") s.
Proof.
  unfold PyStr.replace. rewrite <- list_fmap_compose.
  apply list_fmap_ext. intros i c _. unfold compose.
  destruct (bool_decide (c = chr " ")) eqn:E;
    [reflexivity | now rewrite E].
Qed.

Lemma shapes_of_relabelled (to_str : Types.MapUnitType -> str)
    (u : Types.MapUnit) :
  shapes_of to_str
    (Types.set_label (PyStr.replace (chr " ") (chr "_") (Types.label u)) u) =
  shapes_of to_str u.
Proof.
  unfold shapes_of, shape_label. simpl.
  rewrite replace_idempotent. reflexivity.
Qed.

(** X8. Saving is idempotent: saving the legend that a first save left
    behind writes the same document and leaves the same legend. *)
Theorem save_twice (to_str : Types.MapUnitType -> str)
    (legend : Types.Legend) :
  PrepStepup.saveSteupUpJson to_str
    (snd (PrepStepup.saveSteupUpJson to_str legend)) =
  PrepStepup.saveSteupUpJson to_str legend.
Proof.
  unfold PrepStepup.saveSteupUpJson. rewrite !save_fold_spec. simpl.
  rewrite !map_map. f_equal.
  - f_equal. f_equal. apply map_ext. intros u.
    apply shapes_of_relabelled.
  - f_equal. apply map_ext. intros u. unfold Types.set_label. simpl.
    rewrite replace_idempotent. reflexivity.
Qed.

(** X9. The document holds one shape per unit plus one per unit that has
    a description region, so between one and two shapes per unit. *)
Theorem shape_count (to_str : Types.MapUnitType -> str)
    (legend : Types.Legend) :
  let shapes :=
    PrepStepup.StepUpJson.shapes
      (fst (PrepStepup.saveSteupUpJson to_str legend)) in
  let described :=
    filter (fun u => is_Some (Types.description u)) (Types.features legend) in
  length shapes = length (Types.features legend) + length described ∧
  length (Types.features legend) ≤ length shapes ≤
    2 * length (Types.features legend).
Proof.
  intros shapes described. subst shapes described.
  unfold PrepStepup.saveSteupUpJson. rewrite save_fold_spec. simpl.
  assert (H : length (concat (map (shapes_of to_str) (Types.features legend)))
              = length (Types.features legend) +
                length (filter (fun u => is_Some (Types.description u))
                          (Types.features legend))).
  { induction (Types.features legend) as [|u feats IH]; [reflexivity |].
    simpl. rewrite length_app, IH. unfold shapes_of.
    rewrite filter_cons.
    destruct (Types.description u) as [region|]; simpl.
    - destruct (decide (is_Some (Some region))) as [_ | Hn];
        [simpl; lia | exfalso; apply Hn; eauto].
    - destruct (decide (is_Some (@None Types.BBox))) as [Hs | _];
        [destruct Hs; discriminate | lia]. }
  split; [exact H |].
  pose proof (length_filter (fun u => is_Some (Types.description u))
                (Types.features legend)) as Hf.
  lia.
Qed.


(** * Path handling and legend loading *)

Section Paths.
Import OsPath.

Lemma str_drop_app (a b : str) (n : nat) :
  drop (length a + n) (a ++ b) = drop n b.
Proof. induction a as [|x a IH]; [reflexivity | exact IH]. Qed.

Lemma str_take_app (a b : str) (n : nat) :
  take (length a + n) (a ++ b) = a ++ take n b.
Proof.
  induction a as [|x a IH]; [reflexivity |]. simpl. now rewrite IH.
Qed.

Lemma str_take_drop (n : nat) (s : str) : take n s ++ drop n s = s.
Proof.
  revert s. induction n as [|n IH]; intros s; [reflexivity |].
  destruct s as [|c s]; [reflexivity |].
  simpl. rewrite IH. reflexivity.
Qed.

Lemma rfind_app (c : N) (a b : str) :
  rfind c (a ++ b) =
  match rfind c b with
  | Some i => Some (length a + i)
  | None => rfind c a
  end.
Proof.
  induction a as [|x a IH].
  - simpl. destruct (rfind c b); reflexivity.
  - cbn [app rfind length]. rewrite IH.
    destruct (rfind c b); reflexivity.
Qed.

Lemma endswith_spec (suffix s : str) :
  endswith suffix s = true ↔ ∃ p, s = p ++ suffix.
Proof.
  unfold endswith. split.
  - destruct (_ <? _)%nat; [discriminate |].
    intros H. apply bool_decide_eq_true_1 in H.
    set (n := length s - length suffix) in *.
    exists (take n s). rewrite <- H. symmetry. apply str_take_drop.
  - intros [p ->]. rewrite length_app.
    destruct (_ <? _)%nat eqn:E; [apply Nat.ltb_lt in E; lia |].
    replace (length p + length suffix - length suffix)
      with (length p + 0) by lia.
    rewrite str_drop_app. apply bool_decide_eq_true_2. reflexivity.
Qed.

Lemma endswith_app (suffix a b : str) :
  endswith suffix b = true → endswith suffix (a ++ b) = true.
Proof.
  rewrite !endswith_spec. intros [p ->]. exists (a ++ p).
  now rewrite app_assoc.
Qed.

Lemma endswith_join (suffix a b : str) :
  endswith suffix b = true → endswith suffix (join a b) = true.
Proof.
  intros H. unfold join.
  destruct (PyStr.startswith (lit "/") b); [exact H |].
  destruct (_ || _); repeat apply endswith_app; exact H.
Qed.

Lemma str_drop_app0 (a b : str) : drop (length a) (a ++ b) = b.
Proof.
  rewrite <- (Nat.add_0_r (length a)). apply str_drop_app.
Qed.

Lemma str_take_app0 (a b : str) : take (length a) (a ++ b) = a.
Proof.
  rewrite <- (Nat.add_0_r (length a)), str_take_app. simpl.
  apply app_nil_r.
Qed.

Lemma filename_index (pre rest : str) :
  rfind (chr "/") rest = None → dir_prefix pre →
  match rfind (chr "/") (pre ++ rest) with Some i => S i | None => 0 end =
  length pre.
Proof.
  intros Hrest Hpre. rewrite rfind_app, Hrest.
  destruct Hpre as [-> | [dir ->]]; [reflexivity |].
  rewrite rfind_app, length_app.
  change (rfind (chr "/") (lit "/")) with (Some 0).
  change (length (lit "/")) with 1. cbv beta iota. lia.
Qed.

Lemma basename_pre (pre rest : str) :
  rfind (chr "/") rest = None → dir_prefix pre →
  basename (pre ++ rest) = rest.
Proof.
  intros Hrest Hpre. unfold basename.
  pose proof (filename_index pre rest Hrest Hpre) as Hfi.
  destruct (rfind (chr "/") (pre ++ rest)) as [i|].
  - rewrite Hfi. apply str_drop_app0.
  - destruct pre; [reflexivity | discriminate Hfi].
Qed.

Lemma rfind_slash_json (name : str) :
  rfind (chr "/") name = None →
  rfind (chr "/") (name ++ lit ".json") = None.
Proof.
  intros H. rewrite rfind_app.
  change (rfind (chr "/") (lit ".json")) with (@None nat). exact H.
Qed.

Lemma rfind_dot_json (pre name : str) :
  rfind (chr ".") (pre ++ name ++ lit ".json") =
  Some (length pre + length name).
Proof.
  rewrite !rfind_app.
  change (rfind (chr ".") (lit ".json")) with (Some 0). f_equal. lia.
Qed.

Lemma map_name_pre (pre name : str) :
  rfind (chr "/") name = None → dir_prefix pre →
  Loader.map_name (pre ++ name ++ lit ".json") =
  if has_non_dot name then name else name ++ lit ".json".
Proof.
  intros Hslash Hpre. unfold Loader.map_name, splitext.
  rewrite (filename_index pre (name ++ lit ".json")
             (rfind_slash_json name Hslash) Hpre).
  rewrite rfind_dot_json.
  replace (length pre + length name - length pre)
    with (length name) by lia.
  rewrite str_drop_app0, str_take_app0.
  replace (length pre <=? length pre + length name)%nat
    with true by (symmetry; apply Nat.leb_le; lia).
  cbn [andb]. destruct (has_non_dot name); cbn [fst].
  - rewrite str_take_app, str_take_app0. now apply basename_pre.
  - apply basename_pre; [now apply rfind_slash_json | exact Hpre].
Qed.

End Paths.

(** X10. A legend read from [dir/name.json] or from [name.json] is filed
    under [name], whenever [name] has no slash and has a character other
    than a dot; dots inside [name] are kept. *)
Theorem map_name_strips_json (dir name : str) :
  OsPath.rfind (chr "/") name = None →
  OsPath.has_non_dot name = true →
  Loader.map_name (dir ++ lit "/" ++ name ++ lit ".json") = name ∧
  Loader.map_name (name ++ lit ".json") = name.
Proof.
  intros Hslash Hdot. split.
  - rewrite (app_assoc dir (lit "/")).
    rewrite (map_name_pre (dir ++ lit "/") name Hslash), Hdot;
      [reflexivity |].
    right. now exists dir.
  - change (name ++ lit ".json") with (lit "" ++ name ++ lit ".json").
    rewrite (map_name_pre (lit "") name Hslash), Hdot; [reflexivity |].
    now left.
Qed.

Lemma map_name_strips_json_witness :
  Loader.map_name (lit "maps/AK_Dillingham.v2.json") =
    lit "AK_Dillingham.v2" ∧
  Loader.map_name (lit "AK_Dillingham.v2.json") = lit "AK_Dillingham.v2".
Proof.
  exact (map_name_strips_json (lit "maps") (lit "AK_Dillingham.v2")
           eq_refl eq_refl).
Defined.

(** X11. A file whose name before [.json] is empty or made of dots only
    keeps its whole name: [splitext] does not take leading dots for the
    start of an extension. *)
Theorem map_name_of_dot_file (dir name : str) :
  OsPath.rfind (chr "/") name = None →
  OsPath.has_non_dot name = false →
  Loader.map_name (dir ++ lit "/" ++ name ++ lit ".json") =
  name ++ lit ".json".
Proof.
  intros Hslash Hdot. rewrite (app_assoc dir (lit "/")).
  rewrite (map_name_pre (dir ++ lit "/") name Hslash), Hdot; [reflexivity |].
  right. now exists dir.
Qed.

Lemma map_name_of_dot_file_witness :
  Loader.map_name (lit "maps/.json") = lit ".json".
Proof.
  exact (map_name_of_dot_file (lit "maps") (lit "") eq_refl eq_refl).
Defined.

Section CommandLine.
Import Loader.

Variable fs : FileSystem.

Lemma expand_path_json (acc : list str) (path : str) :
  Forall (fun f => OsPath.endswith (lit ".json") f = true) acc →
  Forall (fun f => OsPath.endswith (lit ".json") f = true)
         (expand_path fs acc path).
Proof.
  intros Hacc. unfold expand_path.
  assert (Hdir : Forall (fun f => OsPath.endswith (lit ".json") f = true)
            (if isdir fs path
             then acc ++
                  map (OsPath.join path)
                      (filter (fun f => OsPath.endswith (lit ".json") f = true)
                              (listdir fs path))
             else acc)).
  { destruct (isdir fs path); [| exact Hacc].
    apply Forall_app. split; [exact Hacc |].
    apply Forall_forall. intros f Hf.
    apply list_elem_of_fmap in Hf as (g & -> & Hg).
    apply list_elem_of_filter in Hg as [Hg _].
    now apply endswith_join. }
  destruct (isfile fs path && OsPath.endswith (lit ".json") path) eqn:E;
    [| exact Hdir].
  apply andb_true_iff in E as [_ E].
  apply Forall_app. split; [exact Hdir | now constructor].
Qed.

Lemma expand_paths_json (data acc : list str) :
  Forall (fun f => OsPath.endswith (lit ".json") f = true) acc →
  Forall (fun f => OsPath.endswith (lit ".json") f = true)
         (fold_left (expand_path fs) data acc).
Proof.
  revert acc. induction data as [|path data IH]; intros acc H; simpl;
    [exact H |].
  apply IH. now apply expand_path_json.
Qed.

Lemma parse_all_data (argv data : list str) :
  mapM (parse_data fs) argv = Some data →
  data = argv ∧ Forall (fun path => exists_ fs path = true) argv.
Proof.
  intros H. apply mapM_Some in H.
  induction H as [|a b argv data Hab _ [IH1 IH2]].
  - split; [reflexivity | constructor].
  - unfold parse_data in Hab. destruct (exists_ fs a) eqn:E;
      [| discriminate Hab].
    simpl in Hab. injection Hab as <-. subst data.
    split; [reflexivity | now constructor].
Qed.

End CommandLine.

(** X12. When the [--data] argument is accepted, every path given exists,
    at least one file was found, and every file handed on ends in
    [.json]. *)
Theorem accepted_data_is_json (fs : Loader.FileSystem)
    (argv files : list str) :
  Loader.parse_command_line_data fs argv = Some files →
  Forall (fun path => Loader.exists_ fs path = true) argv ∧
  files ≠ [] ∧
  Forall (fun f => OsPath.endswith (lit ".json") f = true) files.
Proof.
  unfold Loader.parse_command_line_data.
  destruct (bool_decide (argv = [])); [discriminate |].
  destruct (mapM (Loader.parse_data fs) argv) as [data|] eqn:E;
    [| discriminate].
  destruct (parse_all_data fs argv data E) as [-> Hexists].
  unfold Loader.post_parse_data.
  destruct (bool_decide (length _ = 0)) eqn:El; [discriminate |].
  intros [= <-]. apply bool_decide_eq_false_1 in El.
  split; [exact Hexists |]. split.
  - intros H. apply El. rewrite H. reflexivity.
  - apply expand_paths_json. constructor.
Qed.

Lemma accepted_data_is_json_witness :
  Forall (fun f => OsPath.endswith (lit ".json") f = true)
         [lit "maps/a.json"; lit "maps/b.json"; lit "maps/a.json"; lit "more/a.json"].
Proof.
  apply (accepted_data_is_json sample_fs [lit "maps"; lit "maps/a.json"; lit "more"]).
  vm_compute. reflexivity.
Defined.

Section NoFiles.
Import Loader.

Variable fs : FileSystem.

Lemma expand_path_acc (acc : list str) (path : str) :
  expand_path fs acc path = acc ++ expand_path fs [] path.
Proof.
  unfold expand_path.
  destruct (isdir fs path), (isfile fs path && OsPath.endswith (lit ".json") path);
    simpl; rewrite ?app_nil_r, <- ?app_assoc; reflexivity.
Qed.

Lemma expand_paths_acc (data acc : list str) :
  fold_left (expand_path fs) data acc =
  acc ++ concat (map (expand_path fs []) data).
Proof.
  revert acc. induction data as [|path data IH]; intros acc; simpl.
  - now rewrite app_nil_r.
  - rewrite IH, expand_path_acc, <- app_assoc. reflexivity.
Qed.

Lemma expand_path_nil (path : str) :
  expand_path fs [] path = [] ↔
  (isdir fs path = true →
   ∀ f, f ∈ listdir fs path → OsPath.endswith (lit ".json") f = false) ∧
  (isfile fs path = true → OsPath.endswith (lit ".json") path = false).
Proof.
  unfold expand_path. split.
  - intros H. split.
    + intros Hd f Hf. rewrite Hd in H.
      destruct (OsPath.endswith (lit ".json") f) eqn:E; [| reflexivity].
      exfalso.
      assert (Hin : OsPath.join path f ∈
                map (OsPath.join path)
                    (filter (fun f => OsPath.endswith (lit ".json") f = true)
                            (listdir fs path))).
      { apply list_elem_of_fmap. exists f. split; [reflexivity |].
        apply list_elem_of_filter. split; assumption. }
      destruct (isfile fs path && OsPath.endswith (lit ".json") path);
        simpl in H.
      * apply app_eq_nil in H as [_ H]. discriminate H.
      * rewrite H in Hin. inversion Hin.
    + intros Hf. rewrite Hf in H. simpl in H.
      destruct (OsPath.endswith (lit ".json") path); [| reflexivity].
      apply app_eq_nil in H as [_ H]. discriminate H.
  - intros [Hd Hf].
    assert (Hnone : (if isdir fs path
                     then [] ++
                          map (OsPath.join path)
                            (filter
                               (fun f => OsPath.endswith (lit ".json") f = true)
                               (listdir fs path))
                     else []) = []).
    { destruct (isdir fs path); [| reflexivity]. simpl.
      specialize (Hd eq_refl).
      induction (listdir fs path) as [|f l IH]; [reflexivity |].
      rewrite filter_cons.
      destruct (decide (OsPath.endswith (lit ".json") f = true)) as [E | _].
      - rewrite (Hd f) in E by left. discriminate E.
      - apply IH. intros g Hg. apply Hd. now right. }
    rewrite Hnone.
    destruct (isfile fs path); [| reflexivity].
    rewrite (Hf eq_refl). reflexivity.
Qed.

End NoFiles.

(** X13. [post_parse_data] raises exactly when nothing was found: no
    directory among the paths lists an entry that ends in [.json], and no
    file among them ends in [.json]. *)
Theorem no_files_exactly_when (fs : Loader.FileSystem)
    (data : list str) :
  Loader.post_parse_data fs data = None ↔
  ∀ path, path ∈ data →
    (Loader.isdir fs path = true →
     ∀ f, f ∈ Loader.listdir fs path →
          OsPath.endswith (lit ".json") f = false) ∧
    (Loader.isfile fs path = true → OsPath.endswith (lit ".json") path = false).
Proof.
  unfold Loader.post_parse_data. rewrite expand_paths_acc. simpl.
  assert (Hnil : concat (map (Loader.expand_path fs []) data) = [] ↔
                 ∀ path, path ∈ data → Loader.expand_path fs [] path = []).
  { induction data as [|p data IH]; simpl.
    - split; [intros _ path H; inversion H | reflexivity].
    - split.
      + intros H. apply app_eq_nil in H as [H1 H2].
        intros path Hin. apply elem_of_cons in Hin as [-> | Hin];
          [exact H1 | now apply IH].
      + intros H. rewrite (H p) by left. simpl. apply IH.
        intros path Hin. apply H. now right. }
  split.
  - intros H path Hin. apply expand_path_nil. apply Hnil; [| exact Hin].
    destruct (bool_decide _) eqn:E; [| discriminate H].
    apply bool_decide_eq_true_1 in E. now apply length_zero_iff_nil.
  - intros H.
    assert (Hc : concat (map (Loader.expand_path fs []) data) = []).
    { apply Hnil. intros path Hin. apply expand_path_nil. now apply H. }
    rewrite Hc. reflexivity.
Qed.

Section LoadLegends.
Import Types Loader.

Variable fs : FileSystem.

Lemma dict_get_set_eq (k : str) (v : Legend) (d : list (str * Legend)) :
  dict_get k (dict_set k v d) = Some v.
Proof.
  induction d as [|[k' v'] d IH]; simpl.
  - rewrite bool_decide_eq_true_2; reflexivity.
  - destruct (bool_decide (k' = k)) eqn:E; simpl.
    + rewrite bool_decide_eq_true_2; reflexivity.
    + rewrite E. exact IH.
Qed.

Lemma dict_get_set_ne (k k0 : str) (v : Legend)
    (d : list (str * Legend)) :
  k ≠ k0 → dict_get k0 (dict_set k v d) = dict_get k0 d.
Proof.
  intros Hne. induction d as [|[k' v'] d IH]; simpl.
  - rewrite bool_decide_eq_false_2; [reflexivity | exact Hne].
  - destruct (bool_decide (k' = k)) eqn:E; simpl.
    + apply bool_decide_eq_true_1 in E. subst k'.
      rewrite !bool_decide_eq_false_2; [reflexivity | exact Hne..].
    + destruct (bool_decide (k' = k0)); [reflexivity | exact IH].
Qed.

Lemma dict_set_keys (k : str) (v : Legend) (d : list (str * Legend)) :
  (dict_set k v d).*1 = if bool_decide (k ∈ d.*1) then d.*1 else d.*1 ++ [k].
Proof.
  induction d as [|[k' v'] d IH]; [reflexivity |].
  cbn [dict_set]. rewrite (fmap_cons fst (k', v') d). cbn [fst].
  destruct (bool_decide (k' = k)) eqn:E.
  - apply bool_decide_eq_true_1 in E. subst k'.
    rewrite bool_decide_eq_true_2; [reflexivity | left].
  - apply bool_decide_eq_false_1 in E. rewrite fmap_cons, IH. cbn [fst].
    destruct (bool_decide (k ∈ d.*1)) eqn:Ed.
    + apply bool_decide_eq_true_1 in Ed.
      rewrite bool_decide_eq_true_2; [reflexivity | now right].
    + apply bool_decide_eq_false_1 in Ed.
      rewrite bool_decide_eq_false_2; [reflexivity |].
      intros H. apply elem_of_cons in H as [-> | H]; contradiction.
Qed.

Lemma dict_set_NoDup (k : str) (v : Legend) (d : list (str * Legend)) :
  NoDup d.*1 → NoDup (dict_set k v d).*1.
Proof.
  intros H. rewrite dict_set_keys.
  destruct (bool_decide (k ∈ d.*1)) eqn:E; [exact H |].
  apply bool_decide_eq_false_1 in E.
  apply NoDup_app. split; [exact H |]. split.
  - intros x Hx Hk. apply list_elem_of_singleton in Hk. subst x.
    contradiction.
  - apply NoDup_singleton.
Qed.

Lemma dict_set_key_elem (k k0 : str) (v : Legend)
    (d : list (str * Legend)) :
  k0 ∈ (dict_set k v d).*1 ↔ k0 ∈ d.*1 ∨ k0 = k.
Proof.
  rewrite dict_set_keys. destruct (bool_decide (k ∈ d.*1)) eqn:E.
  - apply bool_decide_eq_true_1 in E. split; [now left |].
    intros [H | ->]; assumption.
  - rewrite elem_of_app, list_elem_of_singleton. tauto.
Qed.

Lemma collect_None (data : list str) (acc : list (str * Legend)) :
  collect_legends fs data acc = None ↔
  ∃ f, f ∈ data ∧ parse_file fs f = None.
Proof.
  revert acc. induction data as [|g data IH]; intros acc; simpl.
  - split; [discriminate | intros (f & Hf & _); inversion Hf].
  - unfold loadLegend. destruct (parse_file fs g) as [legend|] eqn:E.
    + rewrite IH. split.
      * intros (f & Hf & H). exists f. split; [now right | exact H].
      * intros (f & Hf & H). apply elem_of_cons in Hf as [-> | Hf];
          [congruence |]. exists f. split; assumption.
    + split; [| reflexivity]. intros _. exists g. split; [left | exact E].
Qed.

Lemma collect_keys (data : list str) (acc d : list (str * Legend)) :
  collect_legends fs data acc = Some d →
  (NoDup acc.*1 → NoDup d.*1) ∧
  (∀ k, k ∈ d.*1 ↔ k ∈ acc.*1 ∨ ∃ f, f ∈ data ∧ map_name f = k).
Proof.
  revert acc. induction data as [|g data IH]; intros acc; simpl.
  - intros [= <-]. split; [tauto |]. intros k. split; [now left |].
    intros [H | (f & Hf & _)]; [exact H | inversion Hf].
  - unfold loadLegend. destruct (parse_file fs g) as [legend|];
      [| discriminate].
    intros H. destruct (IH _ H) as [Hnd Hk]. split.
    + intros Hacc. apply Hnd. now apply dict_set_NoDup.
    + intros k. rewrite Hk, dict_set_key_elem. split.
      * intros [[H1 | ->] | (f & Hf & Hn)].
        -- now left.
        -- right. exists g. split; [left | reflexivity].
        -- right. exists f. split; [now right | exact Hn].
      * intros [H1 | (f & Hf & Hn)]; [now left; left |].
        apply elem_of_cons in Hf as [-> | Hf].
        -- left. right. now symmetry.
        -- right. exists f. split; assumption.
Qed.

Lemma collect_get_later (data : list str) (acc d : list (str * Legend))
    (k : str) :
  collect_legends fs data acc = Some d →
  (∀ g, g ∈ data → map_name g ≠ k) →
  dict_get k d = dict_get k acc.
Proof.
  revert acc. induction data as [|g data IH]; intros acc; simpl.
  - intros [= <-] _. reflexivity.
  - unfold loadLegend. destruct (parse_file fs g) as [legend|];
      [| discriminate].
    intros H Hne. rewrite (IH _ H).
    + apply dict_get_set_ne. apply Hne. left.
    + intros g' Hg'. apply Hne. now right.
Qed.

Lemma collect_get_last (before after : list str) (f : str)
    (acc d : list (str * Legend)) :
  collect_legends fs (before ++ f :: after) acc = Some d →
  (∀ g, g ∈ after → map_name g ≠ map_name f) →
  dict_get (map_name f) d = parse_file fs f.
Proof.
  revert acc. induction before as [|b before IH]; intros acc; simpl.
  - unfold loadLegend. destruct (parse_file fs f) as [legend|];
      [| discriminate].
    intros H Hne. rewrite (collect_get_later _ _ _ _ H Hne).
    apply dict_get_set_eq.
  - unfold loadLegend at 1. destruct (parse_file fs b) as [legend|];
      [| discriminate].
    apply IH.
Qed.

End LoadLegends.

(** X14. [parallelLoadLegends] fails exactly when one of the files fails
    to parse. *)
Theorem load_fails_exactly_when (fs : Loader.FileSystem)
    (data : list str) :
  Loader.parallelLoadLegends fs data = None ↔
  ∃ f, f ∈ data ∧ Loader.parse_file fs f = None.
Proof. apply collect_None. Qed.

(** X15. When the files load, the dictionary has one entry per map name,
    the names being those of the files; and where several files share a
    name, the entry holds the legend of the last of them. *)
Theorem loaded_legends_by_name (fs : Loader.FileSystem)
    (data : list str) (legends : list (str * Types.Legend)) :
  Loader.parallelLoadLegends fs data = Some legends →
  NoDup legends.*1 ∧
  (∀ k, k ∈ legends.*1 ↔ ∃ f, f ∈ data ∧ Loader.map_name f = k) ∧
  (∀ before f after,
     data = before ++ f :: after →
     (∀ g, g ∈ after → Loader.map_name g ≠ Loader.map_name f) →
     Loader.dict_get (Loader.map_name f) legends = Loader.parse_file fs f).
Proof.
  unfold Loader.parallelLoadLegends. intros H.
  destruct (collect_keys fs data [] legends H) as [Hnd Hk].
  split; [apply Hnd; constructor |]. split.
  - intros k. rewrite Hk. split; [| now right].
    intros [Hin | Hf]; [inversion Hin | exact Hf].
  - intros before f after -> Hne.
    exact (collect_get_last fs before after f [] legends H Hne).
Qed.

Lemma loaded_legends_by_name_witness :
  ∃ legends,
    Loader.parallelLoadLegends sample_fs
      [lit "maps/a.json"; lit "maps/b.json"; lit "more/a.json"] = Some legends ∧
    legends.*1 = [lit "a"; lit "b"] ∧
    Loader.dict_get (lit "a") legends =
      Loader.parse_file sample_fs (lit "more/a.json").
Proof.
  eexists. split; [vm_compute; reflexivity |]. split; [reflexivity |].
  refine (proj2 (proj2 (loaded_legends_by_name sample_fs
            [lit "maps/a.json"; lit "maps/b.json"; lit "more/a.json"] _ _))
            [lit "maps/a.json"; lit "maps/b.json"] (lit "more/a.json") [] eq_refl _).
  - vm_compute. reflexivity.
  - intros g Hg. inversion Hg.
Defined.

(** * Further properties of the known-label builder *)

Lemma main_bucket_elem (lower : str -> str) (ty : Types.MapUnitType)
    (true_legends : list Types.Legend) (s : str) :
  s ∈ bucket ty (GenKnownLabels.main lower true_legends) ↔
  observed lower ty true_legends s ∨
  (ty = Types.LINE ∧ s ∈ GenKnownLabels.known_lines).
Proof.
  rewrite main_bucket, unique_elem, append_lines_bucket,
    scan_legends_bucket.
  split.
  - intros [[H | H] | H]; [| now left | now right].
    destruct ty; inversion H.
  - intros [H | H]; [left; now right | now right].
Qed.

(** X16. Every entry of the built dictionary is in lower case, which is
    what lets the classifier match a label by lower-casing the label
    alone. Two facts about [lower] are used: lower-casing twice is
    lower-casing once, for the entries that come from the legends, and
    ASCII text is lower-cased letter by letter, for the manual
    keywords. *)
Theorem built_entries_lower_case (lower : str -> str)
    (true_legends : list Types.Legend)
    (ty : Types.MapUnitType) (e : str) :
  lowers_ascii lower →
  lower_idempotent lower →
  e ∈ bucket ty (GenKnownLabels.main lower true_legends) →
  lower e = e.
Proof.
  intros Hascii Hidem H. apply main_bucket_elem in H as [H | [_ H]].
  - destruct H as (legend & feature & _ & _ & _ & <-).
    apply Hidem.
  - unfold GenKnownLabels.known_lines in H.
    repeat (apply elem_of_cons in H as [-> | H];
            [rewrite Hascii by reflexivity; reflexivity |]).
    inversion H.
Qed.

Lemma built_entries_lower_case_witness :
  lit "normal fault" ∈
    bucket Types.LINE (GenKnownLabels.main PyStr.lower_ascii truth_legends) ∧
  PyStr.lower_ascii (lit "normal fault") = lit "normal fault".
Proof.
  assert (H : lit "normal fault" ∈
              bucket Types.LINE
                (GenKnownLabels.main PyStr.lower_ascii truth_legends))
    by by_compute.
  split; [exact H |].
  exact (built_entries_lower_case PyStr.lower_ascii truth_legends
           Types.LINE (lit "normal fault") lower_ascii_lowers_ascii
           lower_ascii_idempotent H).
Defined.

(** X17. The built dictionary depends on which legends were read, not on
    their order nor on how often one was read: two corpora with the same
    legends give buckets with the same strings. *)
Theorem built_from_set_of_legends (lower : str -> str)
    (corpus1 corpus2 : list Types.Legend)
    (ty : Types.MapUnitType) (s : str) :
  (∀ legend, legend ∈ corpus1 ↔ legend ∈ corpus2) →
  s ∈ bucket ty (GenKnownLabels.main lower corpus1) ↔
  s ∈ bucket ty (GenKnownLabels.main lower corpus2).
Proof.
  intros H. rewrite !main_bucket_elem.
  assert (Hobs : observed lower ty corpus1 s ↔ observed lower ty corpus2 s).
  { unfold observed. split; intros (lg & f & Hlg & Hrest);
      exists lg, f; (split; [now apply H | exact Hrest]). }
  rewrite Hobs. tauto.
Qed.

Lemma built_from_set_of_legends_witness :
  (lit "qal") ∈ bucket Types.POLYGON (GenKnownLabels.main PyStr.lower_ascii truth_legends) ↔
  (lit "qal") ∈ bucket Types.POLYGON
            (GenKnownLabels.main PyStr.lower_ascii (reverse truth_legends ++ truth_legends)).
Proof.
  apply (built_from_set_of_legends PyStr.lower_ascii truth_legends
           (reverse truth_legends ++ truth_legends)).
  intros legend. rewrite elem_of_app, elem_of_reverse. tauto.
Defined.

(** X18. The builder and the classifier together: with the dictionary
    built from a corpus, a unit whose lower-cased label was seen on a
    Point of the corpus comes out Point; one seen on a Line (or equal to a
    manual keyword) and on no Point comes out Line; one seen on a Polygon
    and on no Point or Line, and that is no manual keyword, comes out
    Polygon. *)
Theorem trained_labels_recognised (lower : str -> str)
    (true_legends : list Types.Legend)
    (u : Types.MapUnit) :
  let d := GenKnownLabels.main lower true_legends in
  let l := lower (Types.label (PrepStepup.preprocess u)) in
  (observed lower Types.POINT true_legends l →
   Types.type <$> classified lower d u = [Types.POINT]) ∧
  (¬ observed lower Types.POINT true_legends l →
   observed lower Types.LINE true_legends l ∨ l ∈ GenKnownLabels.known_lines →
   Types.type <$> classified lower d u = [Types.LINE]) ∧
  (¬ observed lower Types.POINT true_legends l →
   ¬ observed lower Types.LINE true_legends l →
   l ∉ GenKnownLabels.known_lines →
   observed lower Types.POLYGON true_legends l →
   Types.type <$> classified lower d u = [Types.POLYGON]).
Proof.
  intros d l. subst d l.
  unfold classified, PrepStepup.classify_feature, PrepStepup.cascade.
  generalize (PrepStepup.preprocess u). intros v.
  set (l := lower (Types.label v)).
  set (d := GenKnownLabels.main lower true_legends).
  assert (HP : l ∈ KnownLabels.Points d ↔ observed lower Types.POINT true_legends l).
  { pose proof (main_bucket_elem lower Types.POINT true_legends l) as H.
    cbn [bucket] in H. fold d in H. rewrite H.
    split; [intros [H1 | [H1 _]]; [exact H1 | discriminate H1] | now left]. }
  assert (HL : l ∈ KnownLabels.Lines d ↔
               observed lower Types.LINE true_legends l ∨
               l ∈ GenKnownLabels.known_lines).
  { pose proof (main_bucket_elem lower Types.LINE true_legends l) as H.
    cbn [bucket] in H. fold d in H. rewrite H. tauto. }
  assert (HG : l ∈ KnownLabels.Polygons d ↔
               observed lower Types.POLYGON true_legends l).
  { pose proof (main_bucket_elem lower Types.POLYGON true_legends l) as H.
    cbn [bucket] in H. fold d in H. rewrite H.
    split; [intros [H1 | [H1 _]]; [exact H1 | discriminate H1] | now left]. }
  split; [| split].
  - intros H. apply HP in H. rewrite (bool_decide_eq_true_2 _ H).
    reflexivity.
  - intros H1 H2. rewrite <- HP in H1. apply HL in H2.
    rewrite (bool_decide_eq_false_2 _ H1), (bool_decide_eq_true_2 _ H2).
    reflexivity.
  - intros H1 H2 H3 H4. rewrite <- HP in H1. apply HG in H4.
    assert (H5 : l ∉ KnownLabels.Lines d) by (rewrite HL; tauto).
    rewrite (bool_decide_eq_false_2 _ H1), (bool_decide_eq_false_2 _ H5),
      (bool_decide_eq_true_2 _ H4).
    reflexivity.
Qed.

Lemma trained_labels_recognised_witness :
  Types.type <$> classified PyStr.lower_ascii (GenKnownLabels.main PyStr.lower_ascii truth_legends)
                   (unit_labelled (lit "SPRING")) = [Types.POINT].
Proof.
  apply (trained_labels_recognised PyStr.lower_ascii truth_legends
           (unit_labelled (lit "SPRING"))).
  exists (Types.mkLegend (Types.mkProvenance (lit "truth") (lit "1"))
            [Types.set_type Types.LINE (unit_labelled (lit "Normal Fault"));
             Types.set_type Types.POINT (unit_labelled (lit "Spring"))]),
         (Types.set_type Types.POINT (unit_labelled (lit "Spring"))).
  split; [left |]. split; [right; left |]. split; reflexivity.
Defined.


(** * Further properties of the catalog synchroniser *)

Section RowOutcome.
Import Types UpdateStepup.

Variable from_str : str -> MapUnitType.
Variable cdr : Remote.

Lemma not_is_Some_None {A} (o : option A) : ¬ is_Some o → o = None.
Proof. destruct o; [intros H; exfalso; apply H; eauto | reflexivity]. Qed.

Lemma fetch_legend_outcome (ngmdb_id cog_url : str) (st1 : SyncState) :
  match fetch_legend from_str cdr ngmdb_id (cog_id_of cog_url) st1 with
  | Go st2 => legend_ready from_str cdr ngmdb_id cog_url st1 st2
  | Continue st2 =>
      legends (disk st1) !! ngmdb_id = None ∧
      legend_items_answer cdr (cog_id_of cog_url) = Some [] ∧
      st2 = append_bad_id ngmdb_id
              (log_call (LegendItems (cog_id_of cog_url)) st1)
  | Raised st2 =>
      legends (disk st1) !! ngmdb_id = None ∧
      legend_items_answer cdr (cog_id_of cog_url) = None ∧
      st2 = log_call (LegendItems (cog_id_of cog_url)) st1
  end.
Proof.
  unfold fetch_legend, legend_exists.
  destruct (bool_decide (is_Some (legends (disk st1) !! ngmdb_id))) eqn:E.
  - apply bool_decide_eq_true_1 in E. simpl. left. split; [exact E | reflexivity].
  - apply bool_decide_eq_false_1, not_is_Some_None in E. simpl.
    destruct (legend_items_answer cdr (cog_id_of cog_url)) as [items|] eqn:Ei;
      [| repeat split; assumption].
    destruct (bool_decide (length items = 0)) eqn:El.
    + apply bool_decide_eq_true_1, length_zero_iff_nil in El. subst items.
      repeat split; assumption.
    + apply bool_decide_eq_false_1 in El. right. split; [exact E |].
      exists items. split; [exact Ei |]. split; [| reflexivity].
      intros ->. apply El. reflexivity.
Qed.

Lemma process_row_outcome (st : SyncState) (row : Row) :
  row_outcome from_str cdr row st (process_row from_str cdr st row).
Proof.
  unfold process_row.
  destruct (bool_decide (label_completed row ≠ Some (lit "1"))) eqn:Ef.
  { apply bool_decide_eq_true_1 in Ef. now apply row_not_flagged. }
  apply bool_decide_eq_false_1 in Ef.
  assert (Hflag : label_completed row = Some (lit "1")).
  { destruct (decide (label_completed row = Some (lit "1"))); [assumption |].
    contradiction. }
  clear Ef.
  destruct (legend_exists (proddesc row) st && image_exists (proddesc row) st)
    eqn:Eb.
  { apply andb_true_iff in Eb as [EL EI].
    apply bool_decide_eq_true_1 in EL, EI. now apply row_present. }
  destruct (cog_url_answer cdr (proddesc row)) as [cog_url|] eqn:Eu;
    [| now apply row_lookup_failed].
  pose proof (fetch_legend_outcome (proddesc row) cog_url
                (log_call (LookupCog (proddesc row)) st)) as HL.
  destruct (fetch_legend from_str cdr (proddesc row) (cog_id_of cog_url)
              (log_call (LookupCog (proddesc row)) st)) as [st2|st2|st2].
  - unfold fetch_image, image_exists, download_ngmdb_tif.
    destruct (bool_decide (is_Some (images (disk st2) !! proddesc row)))
      eqn:EI.
    + apply bool_decide_eq_true_1 in EI. simpl.
      now apply (row_image_present _ _ _ _ cog_url).
    + apply bool_decide_eq_false_1, not_is_Some_None in EI. simpl.
      destruct (image_answer cdr cog_url) as [[status_code content]|] eqn:Ea.
      * destruct (bool_decide (status_code ≠ 200%Z)) eqn:Es.
        -- apply bool_decide_eq_true_1 in Es.
           now apply (row_image_refused _ _ _ _ cog_url st2 status_code
                        content).
        -- apply bool_decide_eq_false_1 in Es.
           assert (status_code = 200%Z) as ->.
           { destruct (decide (status_code = 200%Z));
               [assumption | contradiction]. }
           now apply (row_image_saved _ _ _ _ cog_url).
      * now apply (row_image_raised _ _ _ _ cog_url).
  - destruct HL as (H1 & H2 & ->).
    now apply (row_legend_empty _ _ _ _ cog_url).
  - destruct HL as (H1 & H2 & ->).
    now apply (row_legend_raised _ _ _ _ cog_url).
Qed.

End RowOutcome.

Section RunInvariants.
Import Types UpdateStepup.

Variable from_str : str -> MapUnitType.
Variable cdr : Remote.

Lemma disk_le_refl (d : Disk) : disk_le d d.
Proof. split; reflexivity. Qed.

Lemma disk_le_trans (a b c : Disk) : disk_le a b → disk_le b c → disk_le a c.
Proof. intros [H1 H2] [H3 H4]. split; etransitivity; eassumption. Qed.

Lemma saveStepUpJson_features (items : list LegendItemResponse.t) :
  length (features (saveStepUpJson from_str items)) = length items.
Proof.
  unfold saveStepUpJson. simpl.
  assert (H : ∀ acc : list MapUnit,
            length (fold_left
              (fun feats feature =>
                 feats ++
                 [mkMapUnit (from_str (LegendItemResponse.category feature))
                    (LegendItemResponse.label feature)
                    (LegendItemResponse.abbreviation feature)
                    [take 2 (LegendItemResponse.px_bbox feature);
                     drop 2 (LegendItemResponse.px_bbox feature)]
                    (LegendItemResponse.description feature)
                    (LegendItemResponse.color feature)
                    (LegendItemResponse.pattern feature)]) items acc) =
            length acc + length items).
  { induction items as [|x items IH]; intros acc; simpl; [lia |].
    rewrite IH, length_app. simpl. lia. }
  apply (H []).
Qed.

Lemma saveStepUpJson_nonempty (items : list LegendItemResponse.t) :
  items ≠ [] → features (saveStepUpJson from_str items) ≠ [].
Proof.
  intros Hne Hnil. apply Hne. apply length_zero_iff_nil.
  rewrite <- saveStepUpJson_features, Hnil. reflexivity.
Qed.

Lemma run_extends_refl (inventory : list Row) (st : SyncState) :
  run_extends inventory st st.
Proof.
  split; [apply disk_le_refl |]. repeat split; auto.
Qed.

Lemma run_extends_trans (inventory : list Row) (a b c : SyncState) :
  run_extends inventory a b → run_extends inventory b c →
  run_extends inventory a c.
Proof.
  intros (D1 & C1 & B1 & F1 & L1) (D2 & C2 & B2 & F2 & L2).
  split; [eapply disk_le_trans; eassumption |].
  split; [auto |]. split; [auto |]. split.
  - intros i Hi. destruct (F2 i Hi) as [Hb | Hf]; [| now right].
    destruct (F1 i Hb) as [Ha | [Hfl Hc]]; [now left |].
    right. split; [exact Hfl | now apply C2].
  - intros i lgd Hi. destruct (L2 i lgd Hi) as [Hb | Hne]; [| now right].
    now apply L1.
Qed.

(** Notes that leave the disk and the bad identifiers alone. *)
Lemma run_extends_log (inventory : list Row) (c : Call) (st : SyncState) :
  run_extends inventory st (log_call c st).
Proof.
  split; [apply disk_le_refl |]. simpl. repeat split; auto.
  intros c' H. apply elem_of_app. now left.
Qed.

Lemma run_extends_bad (inventory : list Row) (row : Row) (st : SyncState) :
  row ∈ inventory → label_completed row = Some (lit "1") →
  LookupCog (proddesc row) ∈ calls st →
  run_extends inventory st (append_bad_id (proddesc row) st).
Proof.
  intros Hin Hflag Hcall. split; [apply disk_le_refl |]. simpl.
  split; [auto |]. split; [| split; [| auto]].
  - intros i H. apply elem_of_app. now left.
  - intros i H. apply elem_of_app in H as [H | H]; [now left |].
    apply list_elem_of_singleton in H. subst i. right.
    split; [| exact Hcall]. exists row. repeat split; assumption.
Qed.

Lemma run_extends_write_legend (inventory : list Row) (i : str)
    (lgd : Legend) (st : SyncState) :
  legends (disk st) !! i = None → features lgd ≠ [] →
  run_extends inventory st (write_legend i lgd st).
Proof.
  intros Hnone Hne. split.
  - split; simpl; [now apply insert_subseteq | reflexivity].
  - simpl. split; [auto |]. split; [auto |]. split; [auto |].
    intros j l Hj. destruct (decide (i = j)) as [-> | Hij].
    + rewrite lookup_insert_eq in Hj. injection Hj as <-. now right.
    + rewrite lookup_insert_ne in Hj by exact Hij. now left.
Qed.

Lemma run_extends_write_image (inventory : list Row) (i content : str)
    (st : SyncState) :
  images (disk st) !! i = None →
  run_extends inventory st (write_image i content st).
Proof.
  intros Hnone. split.
  - split; simpl; [reflexivity | now apply insert_subseteq].
  - simpl. repeat split; auto.
Qed.

Lemma legend_ready_extends (inventory : list Row) (i cog_url : str)
    (st1 st2 : SyncState) :
  legend_ready from_str cdr i cog_url st1 st2 →
  run_extends inventory st1 st2 ∧
  images (disk st2) = images (disk st1) ∧
  bad_ids st2 = bad_ids st1 ∧
  is_Some (legends (disk st2) !! i).
Proof.
  intros [[Hs ->] | (Hnone & items & Hi & Hne & ->)].
  - split; [apply run_extends_refl |]. repeat split; auto.
  - split.
    + eapply run_extends_trans; [apply run_extends_log |].
      apply run_extends_write_legend; [exact Hnone |].
      now apply saveStepUpJson_nonempty.
    + simpl. repeat split; auto. rewrite lookup_insert_eq. eauto.
Qed.

Lemma lookup_logged (row : Row) (st : SyncState) :
  LookupCog (proddesc row) ∈ calls (log_call (LookupCog (proddesc row)) st).
Proof. simpl. apply elem_of_app. right. left. Qed.

(** One row, however it ends. *)
Lemma process_row_extends (inventory : list Row) (st : SyncState)
    (row : Row) :
  row ∈ inventory →
  run_extends inventory st (state_of (process_row from_str cdr st row)).
Proof.
  intros Hin.
  destruct (process_row_outcome from_str cdr st row)
    as [Hf | Hf HL HI | Hf Hu | url Hf Hu HL Hi | url Hf Hu HL Hi
        | url st2 Hf Hu Hr HI | url st2 Hf Hu Hr HI Ha
        | url st2 code body Hf Hu Hr HI Ha Hc | url st2 body Hf Hu Hr HI Ha];
    simpl.
  - apply run_extends_refl.
  - apply run_extends_refl.
  - eapply run_extends_trans; [apply run_extends_log |].
    apply run_extends_bad; [assumption.. | apply lookup_logged].
  - eapply run_extends_trans; apply run_extends_log.
  - eapply run_extends_trans; [apply run_extends_log |].
    eapply run_extends_trans; [apply run_extends_log |].
    apply run_extends_bad; [assumption.. |].
    simpl. apply elem_of_app. left. apply elem_of_app. right. left.
  - eapply run_extends_trans; [apply run_extends_log |].
    now apply (legend_ready_extends inventory _ _ _ _ Hr).
  - eapply run_extends_trans; [apply run_extends_log |].
    eapply run_extends_trans;
      [now apply (legend_ready_extends inventory _ _ _ _ Hr) |].
    apply run_extends_log.
  - eapply run_extends_trans; [apply run_extends_log |].
    eapply run_extends_trans;
      [now apply (legend_ready_extends inventory _ _ _ _ Hr) |].
    eapply run_extends_trans; [apply run_extends_log |].
    now apply run_extends_write_image.
  - eapply run_extends_trans; [apply run_extends_log |].
    eapply run_extends_trans;
      [now apply (legend_ready_extends inventory _ _ _ _ Hr) |].
    eapply run_extends_trans; [apply run_extends_log |].
    now apply run_extends_write_image.
Qed.

(** One row that does not end in an exception. *)
Lemma process_row_finished (inventory : list Row) (st st' : SyncState)
    (row : Row) :
  process_row from_str cdr st row = Go st' ∨
  process_row from_str cdr st row = Continue st' →
  images_from_ok cdr st st' ∧
  (label_completed row = Some (lit "1") → settled row st').
Proof.
  intros Hflow.
  destruct (process_row_outcome from_str cdr st row)
    as [Hf | Hf HL HI | Hf Hu | url Hf Hu HL Hi | url Hf Hu HL Hi
        | url st2 Hf Hu Hr HI | url st2 Hf Hu Hr HI Ha
        | url st2 code body Hf Hu Hr HI Ha Hc | url st2 body Hf Hu Hr HI Ha];
    destruct Hflow as [[= <-] | [= <-]].
  - split; [intros i c H; now left | contradiction].
  - split; [intros i c H; now left |]. intros _. right. split; assumption.
  - split; [intros i c H; now left |]. intros _. left. simpl.
    apply elem_of_app. right. left.
  - split; [intros i c H; now left |]. intros _. left. simpl.
    apply elem_of_app. right. left.
  - destruct (legend_ready_extends inventory _ _ _ _ Hr)
      as (_ & Him & _ & Hleg).
    split.
    + intros i c H. left. rewrite Him in H. exact H.
    + intros _. right. split; assumption.
  - destruct (legend_ready_extends inventory _ _ _ _ Hr)
      as (_ & Him & _ & Hleg).
    split.
    + intros i c H. simpl in H.
      destruct (decide (proddesc row = i)) as [<- | Hne].
      * rewrite lookup_insert_eq in H. injection H as <-.
        right. now exists url.
      * rewrite lookup_insert_ne in H by exact Hne. left.
        rewrite Him in H. exact H.
    + intros _. right. simpl. split; [exact Hleg |].
      rewrite lookup_insert_eq. eauto.
Qed.

Lemma process_rows_extends (inventory rows : list Row) (st : SyncState) :
  (∀ row, row ∈ rows → row ∈ inventory) →
  run_extends inventory st (state_of (process_rows from_str cdr st rows)).
Proof.
  revert st. induction rows as [|row rows IH]; intros st Hsub; simpl.
  - apply run_extends_refl.
  - pose proof (process_row_extends inventory st row (Hsub row ltac:(left)))
      as Hrow.
    destruct (process_row from_str cdr st row) as [st1|st1|st1];
      simpl in Hrow; [| | exact Hrow];
      (eapply run_extends_trans; [exact Hrow |]; apply IH;
       intros r Hr; apply Hsub; now right).
Qed.

Lemma settled_later (inventory : list Row) (row : Row) (st st' : SyncState) :
  run_extends inventory st st' → settled row st → settled row st'.
Proof.
  intros ([HL HI] & _ & HB & _) [Hbad | [[l Hl] [c Hc]]].
  - left. now apply HB.
  - right. split.
    + exists l. eapply lookup_weaken; eassumption.
    + exists c. eapply lookup_weaken; eassumption.
Qed.

Lemma images_from_ok_trans (a b c : SyncState) :
  images_from_ok cdr a b → images_from_ok cdr b c → images_from_ok cdr a c.
Proof.
  intros H1 H2 i content Hc.
  destruct (H2 i content Hc) as [Hb | Hok]; [| now right].
  now apply H1.
Qed.

Lemma process_rows_finished (inventory rows : list Row)
    (st st' : SyncState) :
  (∀ row, row ∈ rows → row ∈ inventory) →
  process_rows from_str cdr st rows = Go st' →
  images_from_ok cdr st st' ∧
  (∀ row, row ∈ rows → label_completed row = Some (lit "1") → settled row st').
Proof.
  revert st. induction rows as [|row rows IH]; intros st Hsub; simpl.
  - intros [= <-]. split; [intros i c H; now left |].
    intros row H. inversion H.
  - destruct (process_row from_str cdr st row) as [st1|st1|st1] eqn:E;
      [| | discriminate]; intros Hrest.
    + destruct (process_row_finished inventory st st1 row (or_introl E))
        as [Him Hset].
      destruct (IH st1 (fun r Hr => Hsub r (list_elem_of_further _ _ _ Hr))
                  Hrest) as [Him' Hset'].
      split; [eapply images_from_ok_trans; eassumption |].
      intros r Hr Hflag. apply elem_of_cons in Hr as [Heq | Hr];
        [subst r | now apply Hset'].
      apply (settled_later inventory row st1 st'); [| now apply Hset].
      pose proof (process_rows_extends inventory rows st1
                    (fun r' Hr' => Hsub r' (list_elem_of_further _ _ _ Hr')))
        as Hext.
      rewrite Hrest in Hext. exact Hext.
    + destruct (process_row_finished inventory st st1 row (or_intror E))
        as [Him Hset].
      destruct (IH st1 (fun r Hr => Hsub r (list_elem_of_further _ _ _ Hr))
                  Hrest) as [Him' Hset'].
      split; [eapply images_from_ok_trans; eassumption |].
      intros r Hr Hflag. apply elem_of_cons in Hr as [Heq | Hr];
        [subst r | now apply Hset'].
      apply (settled_later inventory row st1 st'); [| now apply Hset].
      pose proof (process_rows_extends inventory rows st1
                    (fun r' Hr' => Hsub r' (list_elem_of_further _ _ _ Hr')))
        as Hext.
      rewrite Hrest in Hext. exact Hext.
Qed.

End RunInvariants.

Section WholeRun.
Import Types UpdateStepup.

Variable from_str : str -> MapUnitType.
Variable cdr : Remote.

Lemma flagged_rows_kept (inventory : list Row) (row : Row) :
  row ∈ filter (fun row => is_Some (label_completed row)) inventory →
  row ∈ inventory.
Proof. intros H. now apply list_elem_of_filter in H as [_ H]. Qed.

Lemma main_extends (inventory : list Row) (data : Disk) :
  run_extends inventory (mkSync data [] [])
    (state_of (main from_str cdr inventory data)).
Proof.
  unfold main.
  destruct (register_answer cdr); [| apply run_extends_log].
  eapply run_extends_trans; [apply (run_extends_log _ Register) |].
  pose proof (process_rows_extends from_str cdr inventory
                (filter (fun row => is_Some (label_completed row)) inventory)
                (log_call Register (mkSync data [] []))
                (flagged_rows_kept inventory)) as H.
  destruct (process_rows from_str cdr _ _) as [st|st|st]; simpl in H;
    [| | exact H];
    (destruct (unregister_answer cdr); simpl;
     (eapply run_extends_trans; [exact H | apply run_extends_log])).
Qed.

Lemma main_finished (inventory : list Row) (data : Disk) (st : SyncState) :
  main from_str cdr inventory data = Go st →
  ∃ st1,
    process_rows from_str cdr (log_call Register (mkSync data [] []))
      (filter (fun row => is_Some (label_completed row)) inventory) =
    Go st1 ∧
    st = log_call Unregister st1.
Proof.
  unfold main. destruct (register_answer cdr); [| discriminate].
  destruct (process_rows from_str cdr _ _) as [st1|st1|st1] eqn:E;
    [| exfalso; exact (process_rows_not_continue _ _ _ _ _ E) | discriminate].
  destruct (unregister_answer cdr); [| discriminate].
  intros [= <-]. exists st1. split; reflexivity.
Qed.

Lemma process_row_not_flagged (st : SyncState) (row : Row) :
  label_completed row ≠ Some (lit "1") →
  process_row from_str cdr st row = Continue st.
Proof.
  intros H. unfold process_row. rewrite (bool_decide_eq_true_2 _ H).
  reflexivity.
Qed.

Lemma process_rows_all_present (rows : list Row) (st : SyncState) :
  (∀ row, row ∈ rows → label_completed row = Some (lit "1") →
          is_Some (legends (disk st) !! proddesc row) ∧
          is_Some (images (disk st) !! proddesc row)) →
  process_rows from_str cdr st rows = Go st.
Proof.
  induction rows as [|row rows IH]; intros H; simpl; [reflexivity |].
  assert (Hrow : process_row from_str cdr st row = Continue st).
  { destruct (decide (label_completed row = Some (lit "1"))) as [Hf | Hf].
    - destruct (H row ltac:(left) Hf) as [HL HI].
      apply process_row_skip; unfold legend_exists, image_exists;
        now apply bool_decide_eq_true_2.
    - now apply process_row_not_flagged. }
  rewrite Hrow. apply IH. intros r Hr. apply H. now right.
Qed.

End WholeRun.

(** X19. A run never deletes or overwrites a file that was there before
    it started, however it ends. *)
Theorem existing_files_kept (from_str : str -> Types.MapUnitType)
    (cdr : UpdateStepup.Remote) (inventory : list UpdateStepup.Row)
    (data : UpdateStepup.Disk) (ngmdb_id : str) :
  let st := state_of (UpdateStepup.main from_str cdr inventory data) in
  (∀ lgd, UpdateStepup.legends data !! ngmdb_id = Some lgd →
          UpdateStepup.legends (UpdateStepup.disk st) !! ngmdb_id =
          Some lgd) ∧
  (∀ content, UpdateStepup.images data !! ngmdb_id = Some content →
              UpdateStepup.images (UpdateStepup.disk st) !! ngmdb_id =
              Some content).
Proof.
  intros st. subst st.
  destruct (main_extends from_str cdr inventory data) as ([HL HI] & _).
  simpl in HL, HI. split; intros x Hx; eapply lookup_weaken; eassumption.
Qed.

(** X20. However a run ends, every identifier noted as bad belongs to a
    row of the inventory flagged as completed, and its lookup call was
    made. *)
Theorem bad_ids_were_looked_up (from_str : str -> Types.MapUnitType)
    (cdr : UpdateStepup.Remote) (inventory : list UpdateStepup.Row)
    (data : UpdateStepup.Disk) (ngmdb_id : str) :
  let st := state_of (UpdateStepup.main from_str cdr inventory data) in
  ngmdb_id ∈ UpdateStepup.bad_ids st →
  flagged inventory ngmdb_id ∧
  UpdateStepup.LookupCog ngmdb_id ∈ UpdateStepup.calls st.
Proof.
  intros st Hbad. subst st.
  destruct (main_extends from_str cdr inventory data)
    as (_ & _ & _ & HF & _).
  destruct (HF ngmdb_id Hbad) as [Hin | H]; [inversion Hin | exact H].
Qed.

(** X21. However a run ends, a legend file that it created holds at
    least one unit: an empty legend is never written. *)
Theorem new_legends_have_features (from_str : str -> Types.MapUnitType)
    (cdr : UpdateStepup.Remote) (inventory : list UpdateStepup.Row)
    (data : UpdateStepup.Disk) (ngmdb_id : str) (lgd : Types.Legend) :
  let st := state_of (UpdateStepup.main from_str cdr inventory data) in
  UpdateStepup.legends (UpdateStepup.disk st) !! ngmdb_id = Some lgd →
  UpdateStepup.legends data !! ngmdb_id = Some lgd ∨
  Types.features lgd ≠ [].
Proof.
  intros st H. subst st.
  destruct (main_extends from_str cdr inventory data)
    as (_ & _ & _ & _ & HL).
  exact (HL ngmdb_id lgd H).
Qed.

(** X22. After a run that ends without an exception, every identifier
    flagged as completed and not noted as bad has both its legend file and
    its image file, and an image file that the run created holds the body
    of an answer with status 200. *)
Theorem finished_run_is_complete (from_str : str -> Types.MapUnitType)
    (cdr : UpdateStepup.Remote) (inventory : list UpdateStepup.Row)
    (data : UpdateStepup.Disk) (st : UpdateStepup.SyncState) :
  UpdateStepup.main from_str cdr inventory data = UpdateStepup.Go st →
  (∀ ngmdb_id,
     flagged inventory ngmdb_id →
     ngmdb_id ∉ UpdateStepup.bad_ids st →
     is_Some (UpdateStepup.legends (UpdateStepup.disk st) !! ngmdb_id) ∧
     is_Some (UpdateStepup.images (UpdateStepup.disk st) !! ngmdb_id)) ∧
  (∀ ngmdb_id content,
     UpdateStepup.images (UpdateStepup.disk st) !! ngmdb_id = Some content →
     UpdateStepup.images data !! ngmdb_id = Some content ∨
     ∃ url, UpdateStepup.image_answer cdr url = Some (200%Z, content)).
Proof.
  intros Hrun.
  destruct (main_finished from_str cdr inventory data st Hrun)
    as (st1 & Hrows & ->).
  destruct (process_rows_finished from_str cdr inventory _ _ st1
              (flagged_rows_kept inventory) Hrows) as [Him Hset].
  split.
  - intros i (row & Hin & <- & Hflag) Hbad. simpl in *.
    destruct (Hset row) as [Hb | Hboth]; [| exact Hflag | contradiction |
                                           exact Hboth].
    apply list_elem_of_filter. split; [rewrite Hflag; eauto | exact Hin].
  - intros i content H. exact (Him i content H).
Qed.

(** X23. A second run over the same inventory, after a first one that
    ended without an exception and without a bad identifier, makes no call
    for any map: it registers, unregisters and leaves the disk as it
    was, whatever the catalog would have answered. *)
Theorem second_run_is_idle (from_str from_str' : str -> Types.MapUnitType)
    (cdr cdr' : UpdateStepup.Remote) (inventory : list UpdateStepup.Row)
    (data : UpdateStepup.Disk) (st : UpdateStepup.SyncState)
    (registration : str) :
  UpdateStepup.main from_str cdr inventory data = UpdateStepup.Go st →
  UpdateStepup.bad_ids st = [] →
  UpdateStepup.register_answer cdr' = Some registration →
  UpdateStepup.unregister_answer cdr' = Some tt →
  UpdateStepup.main from_str' cdr' inventory (UpdateStepup.disk st) =
  UpdateStepup.Go
    (UpdateStepup.mkSync (UpdateStepup.disk st) []
       [UpdateStepup.Register; UpdateStepup.Unregister]).
Proof.
  intros Hrun Hbad Hreg Hunreg.
  destruct (main_finished from_str cdr inventory data st Hrun)
    as (st1 & Hrows & ->).
  destruct (process_rows_finished from_str cdr inventory _ _ st1
              (flagged_rows_kept inventory) Hrows) as [_ Hset].
  unfold UpdateStepup.main. rewrite Hreg.
  rewrite process_rows_all_present.
  - rewrite Hunreg. reflexivity.
  - intros row Hrow Hflag. simpl.
    destruct (Hset row Hrow Hflag) as [Hb | Hboth]; [| exact Hboth].
    simpl in Hbad. rewrite Hbad in Hb. inversion Hb.
Qed.

Lemma bad_ids_were_looked_up_witness :
  flagged two_maps (lit "1001") ∧
  UpdateStepup.LookupCog (lit "1001") ∈
    UpdateStepup.calls
      (state_of (UpdateStepup.main sample_from_str catalog_lookup_fails
                   two_maps empty_disk)).
Proof.
  apply (bad_ids_were_looked_up sample_from_str catalog_lookup_fails
           two_maps empty_disk (lit "1001")).
  by_compute.
Defined.

Lemma new_legends_have_features_witness :
  UpdateStepup.legends empty_disk !! (lit "1001") =
    Some (UpdateStepup.saveStepUpJson sample_from_str [sample_item]) ∨
  Types.features (UpdateStepup.saveStepUpJson sample_from_str [sample_item])
    ≠ [].
Proof.
  apply (new_legends_have_features sample_from_str catalog_answers two_maps
           empty_disk (lit "1001")).
  vm_compute. reflexivity.
Defined.

Lemma finished_run_is_complete_witness :
  let st :=
    state_of (UpdateStepup.main sample_from_str catalog_answers two_maps
                                empty_disk) in
  is_Some (UpdateStepup.legends (UpdateStepup.disk st) !! (lit "1002")) ∧
  is_Some (UpdateStepup.images (UpdateStepup.disk st) !! (lit "1002")).
Proof.
  intros st.
  destruct (finished_run_is_complete sample_from_str catalog_answers
              two_maps empty_disk st) as [H _].
  - vm_compute. reflexivity.
  - apply (H (lit "1002")).
    + exists (UpdateStepup.mkRow (lit "1002") (Some (lit "1"))).
      split; [right; left | split; reflexivity].
    + by_compute.
Defined.

Lemma second_run_is_idle_witness :
  let st :=
    state_of (UpdateStepup.main sample_from_str catalog_answers two_maps
                                empty_disk) in
  UpdateStepup.main sample_from_str catalog_lookup_fails two_maps
    (UpdateStepup.disk st) =
  UpdateStepup.Go
    (UpdateStepup.mkSync (UpdateStepup.disk st) []
       [UpdateStepup.Register; UpdateStepup.Unregister]).
Proof.
  intros st.
  apply (second_run_is_idle sample_from_str sample_from_str catalog_answers
           catalog_lookup_fails two_maps empty_disk st (lit "reg"));
    vm_compute; reflexivity.
Defined.

(** * The content identifier and the converted legend *)

Section CogId.
Import UpdateStepup.

Lemma rfind_cons_None (c a : N) (s : str) :
  OsPath.rfind c (a :: s) = None →
  bool_decide (a = c) = false ∧ OsPath.rfind c s = None.
Proof.
  simpl. destruct (OsPath.rfind c s); [discriminate |].
  destruct (bool_decide (a = c)); [discriminate | auto].
Qed.

Lemma split_last_no_sep (sep : N) (s acc : str) :
  OsPath.rfind sep s = None → split_last sep s acc = acc ++ s.
Proof.
  revert acc. induction s as [|a s IH]; intros acc H; simpl.
  - now rewrite app_nil_r.
  - apply rfind_cons_None in H as [Ha Hs]. rewrite Ha, (IH _ Hs).
    rewrite <- app_assoc. reflexivity.
Qed.

Lemma split_last_app (sep : N) (a b acc : str) :
  split_last sep (a ++ sep :: b) acc = split_last sep b [].
Proof.
  revert acc. induction a as [|x a IH]; intros acc.
  - simpl. now rewrite bool_decide_eq_true_2.
  - simpl. destruct (bool_decide (x = sep)); apply IH.
Qed.

Lemma split_first_no_sep (sep : N) (s : str) :
  OsPath.rfind sep s = None → split_first sep s = s.
Proof.
  induction s as [|a s IH]; intros H; [reflexivity |].
  apply rfind_cons_None in H as [Ha Hs]. simpl. now rewrite Ha, (IH Hs).
Qed.

Lemma split_first_app (sep : N) (a b : str) :
  OsPath.rfind sep a = None → split_first sep (a ++ sep :: b) = a.
Proof.
  induction a as [|x a IH]; intros H.
  - simpl. now rewrite bool_decide_eq_true_2.
  - apply rfind_cons_None in H as [Hx Ha]. simpl.
    now rewrite Hx, (IH Ha).
Qed.

End CogId.

(** X24. The content identifier of a [cog_url] is the file name without
    what follows its first dot: for [.../id.ext] and for [.../id] it is
    [id], when [id] has neither slash nor dot and [ext] has no slash. *)
Theorem cog_id_extracted (pre id ext : str) :
  OsPath.rfind (chr "/") id = None →
  OsPath.rfind (chr ".") id = None →
  OsPath.rfind (chr "/") ext = None →
  UpdateStepup.cog_id_of (pre ++ lit "/" ++ id ++ lit "." ++ ext) = id ∧
  UpdateStepup.cog_id_of (pre ++ lit "/" ++ id) = id.
Proof.
  intros Hs Hd He. unfold UpdateStepup.cog_id_of. split.
  - change (pre ++ lit "/" ++ id ++ lit "." ++ ext)
      with (pre ++ chr "/" :: (id ++ chr "." :: ext)).
    rewrite split_last_app, split_last_no_sep, app_nil_l.
    + now apply split_first_app.
    + rewrite rfind_app. cbn [OsPath.rfind]. rewrite He.
      replace (bool_decide (chr "." = chr "/")) with false
        by (symmetry; apply bool_decide_eq_false_2; discriminate).
      exact Hs.
  - change (pre ++ lit "/" ++ id) with (pre ++ chr "/" :: id).
    rewrite split_last_app, split_last_no_sep, app_nil_l by exact Hs.
    now apply split_first_no_sep.
Qed.

Lemma cog_id_extracted_witness :
  UpdateStepup.cog_id_of
    (lit "https://s3.example/cogs/5a3b.cog.tif") = lit "5a3b" ∧
  UpdateStepup.cog_id_of (lit "https://s3.example/cogs/5a3b") = lit "5a3b".
Proof.
  exact (cog_id_extracted (lit "https://s3.example/cogs") (lit "5a3b")
           (lit "cog.tif") eq_refl eq_refl eq_refl).
Defined.

Section Conversion.
Import Types UpdateStepup.

Variable from_str : str -> MapUnitType.

Lemma saveStepUpJson_map (items : list LegendItemResponse.t) :
  features (saveStepUpJson from_str items) =
  map (fun feature =>
         mkMapUnit (from_str (LegendItemResponse.category feature))
           (LegendItemResponse.label feature)
           (LegendItemResponse.abbreviation feature)
           [take 2 (LegendItemResponse.px_bbox feature);
            drop 2 (LegendItemResponse.px_bbox feature)]
           (LegendItemResponse.description feature)
           (LegendItemResponse.color feature)
           (LegendItemResponse.pattern feature)) items.
Proof.
  unfold saveStepUpJson. simpl.
  set (g := fun feature : LegendItemResponse.t =>
              mkMapUnit (from_str (LegendItemResponse.category feature))
                (LegendItemResponse.label feature)
                (LegendItemResponse.abbreviation feature)
                [take 2 (LegendItemResponse.px_bbox feature);
                 drop 2 (LegendItemResponse.px_bbox feature)]
                (LegendItemResponse.description feature)
                (LegendItemResponse.color feature)
                (LegendItemResponse.pattern feature)).
  change (fold_left (fun feats feature => feats ++ [g feature]) items [] =
          map g items).
  assert (H : ∀ acc : list MapUnit,
            fold_left (fun feats feature => feats ++ [g feature]) items acc =
            acc ++ map g items).
  { induction items as [|x items IH]; intros acc; simpl.
    - now rewrite app_nil_r.
    - rewrite IH, <- app_assoc. reflexivity. }
  apply (H []).
Qed.

End Conversion.

(** X25. [saveStepUpJson] of the synchroniser turns the catalog items into
    units one for one and in order: the type comes from the category, the
    texts are copied, and the label box is the pixel box cut after its
    second number, so that its two points put end to end give the pixel
    box back. *)
Theorem catalog_items_converted (from_str : str -> Types.MapUnitType)
    (items : list UpdateStepup.LegendItemResponse.t) :
  let lgd := UpdateStepup.saveStepUpJson from_str items in
  Types.provenance lgd = Types.mkProvenance (lit "labelme") (lit "0.0.1") ∧
  Forall2
    (fun item u =>
       Types.type u =
         from_str (UpdateStepup.LegendItemResponse.category item) ∧
       Types.label u = UpdateStepup.LegendItemResponse.label item ∧
       Types.abbreviation u =
         UpdateStepup.LegendItemResponse.abbreviation item ∧
       length (Types.label_bbox u) = 2 ∧
       concat (Types.label_bbox u) =
         UpdateStepup.LegendItemResponse.px_bbox item ∧
       (∀ x1 y1 x2 y2,
          UpdateStepup.LegendItemResponse.px_bbox item = [x1; y1; x2; y2] →
          Types.label_bbox u = [[x1; y1]; [x2; y2]]))
    items (Types.features lgd).
Proof.
  intros lgd. subst lgd. split; [reflexivity |].
  rewrite saveStepUpJson_map.
  induction items as [|item items IH]; simpl; constructor; [| exact IH].
  simpl. repeat split.
  - rewrite app_nil_r. apply firstn_skipn.
  - intros x1 y1 x2 y2 ->. reflexivity.
Qed.

